(** * ID-card OCR pipeline: zone extraction and result aggregation

    A shallow embedding of [src/processor.py] (class [IDCardOCRProcessor]) and
    [src/ocr_service.py] (class [OCRService]).

    - Python [float] is IEEE binary64: Rocq's primitive [float].
    - Python [int] is [Z].
    - Recognised text is a Python [str]: a list of Unicode code points.
      Field names are literals of the source and are kept as [string].
    - A [dict] keyed by field name is a [gmap string _].
    - Calls into collaborators whose code is not part of the two files
      (decoder, detector, normaliser, zone reader, validator, PIL,
      pytesseract) are fields of records; every such call is logged in a
      trace, and exceptions are threaded explicitly. *)

From Stdlib Require Import ZArith NArith Floats.PrimFloat Floats.FloatOps Floats.SpecFloat.
From stdpp Require Import gmap strings list fin_maps.

#[local] Set Warnings "-clear-no-such-hyp".
Local Open Scope Z_scope.

(** ** Python runtime *)

Module Py.

(** Instances of [Exception] and its subclasses.  The two named ones are
    raised by the conversions below; [OtherError] stands for whatever a
    library call may raise. *)
Inductive PyExc : Type :=
| ValueError
| OverflowError
| ZeroDivisionError
| OtherError (msg : string).

Inductive Res (A : Type) : Type :=
| Ok (a : A)
| Raise (e : PyExc).
Arguments Ok {A} a.
Arguments Raise {A} e.

Definition is_Ok {A} (r : Res A) : bool :=
  match r with Ok _ => true | Raise _ => false end.

(** *** [str] *)

Abbreviation pystr := (list N).

(** The code points for which [str.isspace] holds; [str.strip()] and
    [str.split()] without arguments use exactly this set. *)
Definition isspace (c : N) : bool :=
  (((9 <=? c) && (c <=? 13)) || ((28 <=? c) && (c <=? 32))
   || (c =? 133) || (c =? 160) || (c =? 5760)
   || ((8192 <=? c) && (c <=? 8202))
   || (c =? 8232) || (c =? 8233) || (c =? 8239) || (c =? 8287)
   || (c =? 12288))%N.

Fixpoint lstrip (s : pystr) : pystr :=
  match s with
  | [] => []
  | c :: s' => if isspace c then lstrip s' else s
  end.

Definition rstrip (s : pystr) : pystr := rev (lstrip (rev s)).

(** [s.strip()] *)
Definition strip (s : pystr) : pystr := rstrip (lstrip s).

(** [s.split()]: [cur] is the word being read, most recent character
    first. *)
Fixpoint split_from (cur : pystr) (s : pystr) : list pystr :=
  match s with
  | [] => match cur with [] => [] | _ => [rev cur] end
  | c :: s' =>
      if isspace c
      then match cur with
           | [] => split_from [] s'
           | _ => rev cur :: split_from [] s'
           end
      else split_from (c :: cur) s'
  end.

Definition split (s : pystr) : list pystr := split_from [] s.

(** [sep.join(words)] *)
Fixpoint join (sep : pystr) (words : list pystr) : pystr :=
  match words with
  | [] => []
  | [w] => w
  | w :: ws => w ++ sep ++ join sep ws
  end.

Definition SPACE : N := 32%N.

(** [bool(s)] for a [str] *)
Definition truthy (s : pystr) : bool :=
  match s with [] => false | _ => true end.

(** *** [float] and [int] *)

Definition float_finite (f : float) : bool :=
  match Prim2SF f with
  | S754_zero _ | S754_finite _ _ _ => true
  | S754_infinity _ | S754_nan => false
  end.

(** The conversion of an [int] operand in mixed arithmetic: to nearest,
    ties to even; too large an [int] raises. *)
Definition float_of_int (z : Z) : Res float :=
  let f := SF2Prim (binary_normalize prec emax z 0 false) in
  if float_finite f then Ok f else Raise OverflowError.

(** [x * n] for a float [x] and an int [n] *)
Definition mul_float_int (x : float) (n : Z) : Res float :=
  match float_of_int n with
  | Ok fn => Ok (PrimFloat.mul x fn)
  | Raise e => Raise e
  end.

(** The numerator and denominator of a finite float. *)
Definition finite_num (s : bool) (m : positive) (e : Z) : Z :=
  (if s then - Z.pos m else Z.pos m) * 2 ^ Z.max e 0.
Definition finite_den (e : Z) : Z := 2 ^ Z.max (- e) 0.

(** [int(f)]: truncation toward zero. *)
Definition int_of_float (f : float) : Res Z :=
  match Prim2SF f with
  | S754_nan => Raise ValueError
  | S754_infinity _ => Raise OverflowError
  | S754_zero _ => Ok 0
  | S754_finite s m e => Ok (Z.quot (finite_num s m e) (finite_den e))
  end.

(** [round(f)]: to nearest, ties to even.  Not used by the pipeline; it is
    what the specification's wording of the pixel rectangle asks for. *)
Definition round_half_even (num den : Z) : Z :=
  let q := num / den in
  let r := num mod den in
  match 2 * r ?= den with
  | Lt => q
  | Gt => q + 1
  | Eq => if Z.even q then q else q + 1
  end.

Definition round_of_float (f : float) : Res Z :=
  match Prim2SF f with
  | S754_nan => Raise ValueError
  | S754_infinity _ => Raise OverflowError
  | S754_zero _ => Ok 0
  | S754_finite s m e => Ok (round_half_even (finite_num s m e) (finite_den e))
  end.

(** A number that is either an [int] or a [float]. *)
Inductive PyNum : Type :=
| PyInt (z : Z)
| PyFloat (f : float).

(** [a / b] on two ints, both of magnitude below [2^53]: each converts
    exactly and the quotient is one IEEE division. *)
Definition truediv (a b : Z) : float :=
  PrimFloat.div (SF2Prim (binary_normalize prec emax a 0 false))
                (SF2Prim (binary_normalize prec emax b 0 false)).

End Py.
Export Py.

(** ** Libraries the two files import *)

(** The Unicode upper-case table behind [str.upper]: one code point maps to
    one or more code points. *)
Class UnicodeData : Type := {
  upper_char : N → list N;
}.

(** [s.upper()] *)
Definition upper {UD : UnicodeData} (s : pystr) : pystr := flat_map upper_char s.

(** numpy arrays, PIL images and the [pytesseract] module.  [pytesseract] is
    [None] when the import at the top of [ocr_service.py] failed. *)
Class Imaging : Type := {
  ndarray : Type;
  PILImage : Type;
  shape : ndarray → list nat;
  flip_last_axis : ndarray → ndarray;
  Image_fromarray : ndarray → Res PILImage;
  pytesseract : option (PILImage → string → string → Res pystr);
}.

(** [a.size]: the number of elements. *)
Definition size_of {IM : Imaging} (a : ndarray) : nat := foldr Nat.mul 1%nat (shape a).

(** ** Effects: the trace of calls that leave the two files *)

Inductive Event {IM : Imaging} : Type :=
| EvDecode (image_base64 : string)
| EvDetect (image : ndarray)
| EvNormalize (image : ndarray)
| EvLoadZones (side : string)
| EvCrop (image : ndarray) (x y w h : Z)
| EvRecognize (roi : ndarray)
| EvFromArray (a : ndarray)
| EvEngine (pil : PILImage) (lang config : string)
| EvPrint (e : PyExc)
| EvClean (text : pystr)
| EvValidate (results : gmap string pystr).

(** A computation returns or raises, and leaves a trace. *)
Definition M {IM : Imaging} (A : Type) : Type := Res A * list Event.

Definition ret {IM : Imaging} {A} (a : A) : M A := (Ok a, []).

Definition bind {IM : Imaging} {A B} (m : M A) (f : A → M B) : M B :=
  match m with
  | (Ok a, t) => let '(r, t') := f a in (r, t ++ t')
  | (Raise e, t) => (Raise e, t)
  end.

#[global] Instance M_ret {IM : Imaging} : MRet M := @ret _.
#[global] Instance M_bind {IM : Imaging} : MBind M := λ A B f m, bind m f.

Definition emit {IM : Imaging} (ev : Event) : M unit := (Ok tt, [ev]).

Definition lift {IM : Imaging} {A} (r : Res A) : M A := (r, []).

(** [try: body except Exception as e: handler(e)] *)
Definition try_except {IM : Imaging} {A} (body : M A) (handler : PyExc → M A) : M A :=
  match body with
  | (Ok a, t) => (Ok a, t)
  | (Raise e, t) => let '(r, t') := handler e in (r, t ++ t')
  end.

Definition value {IM : Imaging} {A} (m : M A) : Res A := m.1.
Definition trace {IM : Imaging} {A} (m : M A) : list Event := m.2.

(** ** [ocr_service.py] *)

Definition TESSERACT_AVAILABLE {IM : Imaging} : bool :=
  match pytesseract with Some _ => true | None => false end.

Record OCRService : Type := {
  is_configured : bool;
}.

(** [pytesseract.image_to_string(pil_image, lang=..., config=...)] *)
Definition image_to_string {IM : Imaging} (pil : PILImage) (lang config : string) : M pystr :=
  match pytesseract with
  | Some engine => _ ← emit (EvEngine pil lang config); lift (engine pil lang config)
  | None => lift (Raise (OtherError "NameError"))
  end.

(** [Image.fromarray(rgb_image)] *)
Definition fromarray {IM : Imaging} (a : ndarray) : M PILImage :=
  _ ← emit (EvFromArray a); lift (Image_fromarray a).

Definition extract_text_from_roi {IM : Imaging} {UD : UnicodeData}
    (self : OCRService) (image_array : ndarray) : M pystr :=
  if negb TESSERACT_AVAILABLE then mret []
  else
    try_except
      (let rgb_image :=
         if (length (shape image_array) =? 3)%nat
         then flip_last_axis image_array
         else image_array in
       pil_image ← fromarray rgb_image;
       text ← image_to_string pil_image "pol+eng" "--psm 7";
       let cleaned := strip text in
       let cleaned := join [SPACE] (split cleaned) in
       mret (upper cleaned))
      (λ e, _ ← emit (EvPrint e); mret []).

Definition is_available {IM : Imaging} (self : OCRService) : bool := TESSERACT_AVAILABLE.

(** ** Collaborators of [processor.py] *)

(** One entry of a zone layout: [{"x": .., "y": .., "width": .., "height": ..}]. *)
Record Zone : Type := {
  zone_x : float;
  zone_y : float;
  zone_width : float;
  zone_height : float;
}.

(** What [ZoneReader.load_zones] returns: [{"zones": {field: zone}}]. *)
Record ZonesData : Type := {
  zones : gmap string Zone;
}.

Record ZoneReader : Type := {
  load_zones : string → ZonesData;
}.

Record DocumentDetector {IM : Imaging} : Type := {
  process : ndarray → ndarray * bool;
  crop_zone : ndarray → Z → Z → Z → Z → ndarray;
}.

Record ImageNormalizer {IM : Imaging} : Type := {
  decode_base64 : string → option ndarray;
  normalize_document : ndarray → ndarray;
}.

Record ResultValidator : Type := {
  clean_text : pystr → pystr;
  validate_all : gmap string pystr → gmap string pystr;
}.

(** ** [processor.py] *)

Record IDCardOCRProcessor {IM : Imaging} : Type := {
  zone_reader : ZoneReader;
  detector : DocumentDetector;
  normalizer : ImageNormalizer;
  validator : ResultValidator;
  ocr_service : OCRService;
  target_width : Z;
  target_height : Z;
}.

Definition FRONT_FIELDS : list string :=
  [ "f_nazwisko"; "f_imiona"; "f_obywatelstwo"; "f_data_urodzenia";
    "f_plec"; "f_numer_ID"; "f_data_waznosci"; "f_numer_kodu" ]%string.

Definition BACK_FIELDS : list string :=
  [ "b_seria_id"; "b_numer_id"; "b_numer_ident"; "b_data_wydania";
    "b_kto_wydal"; "b_imiona_rodzicow"; "b_nazwisko_rodowe";
    "b_miejsce_urodzenia"; "MRZ" ]%string.

(** [int(c * n)] for a zone coordinate [c] and a frame dimension [n]. *)
Definition scale (c : float) (n : Z) : Res Z :=
  match mul_float_int c n with
  | Ok f => int_of_float f
  | Raise e => Raise e
  end.

(** Lines 131-134: the absolute rectangle [(x, y, w, h)] of a zone. *)
Definition zone_rect (width height : Z) (zone : Zone) : Res (Z * Z * Z * Z) :=
  match scale (zone_x zone) width with
  | Raise e => Raise e
  | Ok x =>
  match scale (zone_y zone) height with
  | Raise e => Raise e
  | Ok y =>
  match scale (zone_width zone) width with
  | Raise e => Raise e
  | Ok w =>
  match scale (zone_height zone) height with
  | Raise e => Raise e
  | Ok h => Ok (x, y, w, h)
  end end end end.

(** [{field: "" for field in fields}] *)
Definition empty_results (fields : list string) : gmap string pystr :=
  foldl (λ d field, <[field := []]> d) ∅ fields.

(** The body of the loop over [fields]: the text stored under [field].
    Both [continue] branches store the empty string. *)
Definition process_field {IM : Imaging} {UD : UnicodeData} (self : IDCardOCRProcessor)
    (corrected : ndarray) (zs : gmap string Zone) (field : string) : M pystr :=
  match zs !! field with
  | None => mret []
  | Some zone =>
      '(x, y, w, h) ← lift (zone_rect (target_width self) (target_height self) zone);
      _ ← emit (EvCrop corrected x y w h);
      let cropped := crop_zone (detector self) corrected x y w h in
      if (size_of cropped =? 0)%nat then mret []
      else
        _ ← emit (EvRecognize cropped);
        text ← extract_text_from_roi (ocr_service self) cropped;
        _ ← emit (EvClean text);
        let text := clean_text (validator self) text in
        mret text
  end.

(** [for field in fields: ...; results[field] = ...] *)
Fixpoint extract_fields {IM : Imaging} {UD : UnicodeData} (self : IDCardOCRProcessor)
    (corrected : ndarray) (zs : gmap string Zone)
    (fields : list string) (results : gmap string pystr) : M (gmap string pystr) :=
  match fields with
  | [] => mret results
  | field :: rest =>
      text ← process_field self corrected zs field;
      extract_fields self corrected zs rest (<[field := text]> results)
  end.

Definition _process_side {IM : Imaging} {UD : UnicodeData} (self : IDCardOCRProcessor)
    (image_base64 : string) (side : string) (fields : list string)
    : M (gmap string pystr) :=
  _ ← emit (EvDecode image_base64);
  match decode_base64 (normalizer self) image_base64 with
  | None => mret (empty_results fields)
  | Some image =>
      if (size_of image =? 0)%nat then mret (empty_results fields)
      else
        _ ← emit (EvDetect image);
        let '(corrected, detected) := process (detector self) image in
        corrected ← (if negb detected
                     then _ ← emit (EvNormalize image);
                          mret (normalize_document (normalizer self) image)
                     else mret corrected);
        _ ← emit (EvLoadZones side);
        let zones_data := load_zones (zone_reader self) side in
        let zs := zones zones_data in
        results ← extract_fields self corrected zs fields ∅;
        _ ← emit (EvValidate results);
        let results := validate_all (validator self) results in
        mret results
  end.

Definition process_front {IM : Imaging} {UD : UnicodeData} (self : IDCardOCRProcessor)
    (image_base64 : string) : M (gmap string pystr) :=
  _process_side self image_base64 "front" FRONT_FIELDS.

Definition process_back {IM : Imaging} {UD : UnicodeData} (self : IDCardOCRProcessor)
    (image_base64 : string) : M (gmap string pystr) :=
  _process_side self image_base64 "back" BACK_FIELDS.

Record CombinedResult : Type := {
  success : bool;
  data : gmap string pystr;
  extracted_fields : Z;
  total_fields : Z;
  extraction_rate : PyNum;
}.

(** [d.update(other)]: the entries of [other] win. *)
Definition update (d other : gmap string pystr) : gmap string pystr := other ∪ d.

(** [sum(1 for v in d.values() if v)] *)
Definition count_truthy (d : gmap string pystr) : Z :=
  map_fold (λ _ v acc, if truthy v then acc + 1 else acc) 0 d.

(** Lines 170-185: what [process_both] does with the two side results. *)
Definition combine (front_results back_results : gmap string pystr) : CombinedResult :=
  let all_results := ∅ in
  let all_results := update all_results front_results in
  let all_results := update all_results back_results in
  let successful := count_truthy all_results in
  let total := Z.of_nat (size all_results) in
  {| success := true;
     data := all_results;
     extracted_fields := successful;
     total_fields := total;
     extraction_rate :=
       if 0 <? total then PyFloat (truediv successful total) else PyInt 0 |}.

Definition process_both {IM : Imaging} {UD : UnicodeData} (self : IDCardOCRProcessor)
    (front_base64 back_base64 : string) : M CombinedResult :=
  front_results ← process_front self front_base64;
  back_results ← process_back self back_base64;
  mret (combine front_results back_results).

(** ** The pixel rectangle in the specification's wording

    [px = round(x * frameWidth)] and so on, with Python's [round]. *)
Definition scale_rounded (c : float) (n : Z) : Res Z :=
  match mul_float_int c n with
  | Ok f => round_of_float f
  | Raise e => Raise e
  end.

Definition spec_zone_rect (width height : Z) (zone : Zone) : Res (Z * Z * Z * Z) :=
  match scale_rounded (zone_x zone) width with
  | Raise e => Raise e
  | Ok x =>
  match scale_rounded (zone_y zone) height with
  | Raise e => Raise e
  | Ok y =>
  match scale_rounded (zone_width zone) width with
  | Raise e => Raise e
  | Ok w =>
  match scale_rounded (zone_height zone) height with
  | Raise e => Raise e
  | Ok h => Ok (x, y, w, h)
  end end end end.

(** ** Predicates used in the statements *)

(** A coordinate scales to a finite float, so [int] accepts it. *)
Definition scalable (c : float) (n : Z) : bool :=
  match mul_float_int c n with
  | Ok f => float_finite f
  | Raise _ => false
  end.

Definition zone_finite (width height : Z) (zone : Zone) : bool :=
  scalable (zone_x zone) width && scalable (zone_y zone) height
  && scalable (zone_width zone) width && scalable (zone_height zone) height.

(** Every zone of every layout the reader hands out is finite once scaled
    by the frame of the processor. *)
Definition layout_finite {IM : Imaging} (self : IDCardOCRProcessor) : Prop :=
  ∀ side field zone,
    zones (load_zones (zone_reader self) side) !! field = Some zone →
    zone_finite (target_width self) (target_height self) zone = true.

(** The exact value of a finite float, as a fraction. *)
Definition float_fraction (f : float) : option (Z * Z) :=
  match Prim2SF f with
  | S754_zero _ => Some (0, 1)
  | S754_finite s m e => Some (finite_num s m e, finite_den e)
  | S754_infinity _ | S754_nan => None
  end.

(** [v] is [num/den] with the fractional part dropped: the integer of
    largest magnitude not beyond [num/den], on the same side of zero. *)
Definition truncation_of (num den v : Z) : Prop :=
  Z.abs v * den ≤ Z.abs num < (Z.abs v + 1) * den ∧ 0 ≤ v * num.

(** [v] is the product [c * n], computed in floating point, truncated. *)
Definition truncated_product (c : float) (n : Z) (v : Z) : Prop :=
  ∃ p num den,
    mul_float_int c n = Ok p
    ∧ float_fraction p = Some (num, den)
    ∧ 0 < den
    ∧ truncation_of num den v.

(** What the whole-mapping validation is relied on for. *)
Definition keeps_keys (v : ResultValidator) : Prop :=
  ∀ m, dom (validate_all v m) = dom m.

Definition keeps_empty (v : ResultValidator) : Prop :=
  ∀ m k, m !! k = Some [] → validate_all v m !! k = Some [].

(** The canonical image [_process_side] works on once [image] is decoded. *)
Definition corrected_image {IM : Imaging} (self : IDCardOCRProcessor) (image : ndarray) : ndarray :=
  let '(corrected, detected) := process (detector self) image in
  if negb detected then normalize_document (normalizer self) image else corrected.

(** The image handed to PIL by [extract_text_from_roi]. *)
Definition rgb_of {IM : Imaging} (image_array : ndarray) : ndarray :=
  if (length (shape image_array) =? 3)%nat
  then flip_last_axis image_array
  else image_array.

(** The recognition of [roi] raises: in the conversion to a PIL image or in
    the engine call itself. *)
Definition recognition_raises {IM : Imaging} (roi : ndarray) : Prop :=
  (∃ e, Image_fromarray (rgb_of roi) = Raise e)
  ∨ (∃ pil engine e,
        Image_fromarray (rgb_of roi) = Ok pil
        ∧ pytesseract = Some engine
        ∧ engine pil "pol+eng"%string "--psm 7"%string = Raise e).

(** Facts of the Unicode tables the statements about [upper] rest on. *)
Class UnicodeLaws (UD : UnicodeData) : Prop := {
  upper_space : ∀ c, isspace c = true → upper_char c = [c];
  upper_nonspace : ∀ c, isspace c = false →
    upper_char c ≠ [] ∧ Forall (λ d, isspace d = false) (upper_char c);
  upper_idem : ∀ c, flat_map upper_char (upper_char c) = upper_char c;
}.

Definition no_leading_space (s : pystr) : Prop :=
  ∀ c, head s = Some c → isspace c = false.

Definition no_trailing_space (s : pystr) : Prop :=
  ∀ c, last s = Some c → isspace c = false.

(** Every whitespace character is one U+0020 and is not followed by
    another whitespace character. *)
Definition single_spaces (s : pystr) : Prop :=
  ∀ (i : nat) c, s !! i = Some c → isspace c = true →
    c = SPACE ∧ ∀ c', s !! S i = Some c' → isspace c' = false.

Definition normalized {UD : UnicodeData} (s : pystr) : Prop :=
  s = [] ∨ (upper s = s ∧ no_leading_space s ∧ no_trailing_space s ∧ single_spaces s).

(** A word: non-empty, free of whitespace. *)
Definition word (w : pystr) : Prop := w ≠ [] ∧ Forall (λ c, isspace c = false) w.

(** The texts handed to [validator.clean_text] in a trace. *)
Definition cleaned_inputs {IM : Imaging} (t : list Event) : list pystr :=
  omap (λ ev, match ev with EvClean text => Some text | _ => None end) t.

(** The events of a trace that reach the recognition service or engine. *)
Definition is_recognition {IM : Imaging} (ev : Event) : bool :=
  match ev with
  | EvRecognize _ | EvFromArray _ | EvEngine _ _ _ => true
  | _ => false
  end.

(** The count of non-empty values, in the specification's wording. *)
Definition nonempty_values (d : gmap string pystr) : Z :=
  Z.of_nat (length (filter (λ kv, kv.2 ≠ []) (map_to_list d))).

(** ** A concrete installation, for running the model *)

Module Demo.

Definition codes (s : string) : pystr :=
  map (λ a, N.of_nat (Ascii.nat_of_ascii a)) (String.list_ascii_of_string s).

Definition ascii_upper_char (c : N) : list N :=
  if ((97 <=? c) && (c <=? 122))%N then [(c - 32)%N] else [c].

Definition ascii_unicode : UnicodeData := {| upper_char := ascii_upper_char |}.

(** Arrays and PIL images are represented by their shape. *)
Definition engine (pil : list nat) (lang config : string) : Res pystr :=
  if decide (pil = [63; 200; 3]%nat)
  then Raise (OtherError "TesseractError")
  else Ok (codes "  jan   kowalski ").

Definition imaging : Imaging := {|
  ndarray := list nat;
  PILImage := list nat;
  shape := λ a, a;
  flip_last_axis := λ a, a;
  Image_fromarray := λ a, Ok a;
  pytesseract := Some engine;
|}.

Definition imaging_offline : Imaging := {|
  ndarray := list nat;
  PILImage := list nat;
  shape := λ a, a;
  flip_last_axis := λ a, a;
  Image_fromarray := λ a, Ok a;
  pytesseract := None;
|}.

#[warnings="-inexact-float"]
Definition example_zone : Zone :=
  {| zone_x := 0.1; zone_y := 0.1; zone_width := 0.2; zone_height := 0.05 |}.

#[warnings="-inexact-float"]
Definition flat_zone : Zone :=
  {| zone_x := 0.5; zone_y := 0.5; zone_width := 0; zone_height := 0.1 |}.

#[warnings="-inexact-float"]
Definition smudged_zone : Zone :=
  {| zone_x := 0.5; zone_y := 0.5; zone_width := 0.2; zone_height := 0.1 |}.

Definition layout (side : string) : ZonesData :=
  if decide (side = "front"%string)
  then {| zones := {[ "f_nazwisko"%string := example_zone;
                      "f_imiona"%string := flat_zone;
                      "f_plec"%string := smudged_zone ]} |}
  else {| zones := {[ "MRZ"%string := example_zone ]} |}.

Definition the_validator : ResultValidator :=
  {| clean_text := λ t, t; validate_all := λ m, m |}.

Definition processor (IM : Imaging) (decode : string → option ndarray)
    (crop : ndarray → Z → Z → Z → Z → ndarray) : IDCardOCRProcessor :=
  {| zone_reader := {| load_zones := layout |};
     detector := {| process := λ image, (image, false); crop_zone := crop |};
     normalizer := {| decode_base64 := decode; normalize_document := λ image, image |};
     validator := the_validator;
     ocr_service := {| is_configured := TESSERACT_AVAILABLE |};
     target_width := 1000;
     target_height := 630 |}.

Definition decode (s : string) : option (list nat) :=
  if decide (s = ""%string) then None else Some [630; 1000; 3]%nat.

Definition crop (image : list nat) (x y w h : Z) : list nat :=
  [Z.to_nat h; Z.to_nat w; 3%nat].

Definition online : @IDCardOCRProcessor imaging := processor imaging decode crop.
Definition offline : @IDCardOCRProcessor imaging_offline := processor imaging_offline decode crop.

End Demo.


(** ** The rest of [ocr_service.py]

    The block-mode recognition and the diagnostics use more of the
    libraries than [Imaging] has: [Image.open] on bytes,
    [pytesseract.get_tesseract_version], and [str] of a version and of an
    exception.  They also print, and the constructor assigns to a global of
    pytesseract; their traces carry these events beside the ones above. *)

Class Diagnostics {IM : Imaging} : Type := {
  Image_open : list Byte.byte → Res PILImage;
  Version : Type;
  get_tesseract_version : Res Version;
  str_version : Version → string;
  str_exc : PyExc → string;
}.

Inductive IOEvent {IM : Imaging} : Type :=
| IOCall (ev : Event)
| IOOpen (image : list Byte.byte)
| IOVersion
| IOSetCmd (tesseract_cmd : string)
| IOPrint (line : string).

Definition IO {IM : Imaging} (A : Type) : Type := Res A * list IOEvent.

Definition io_ret {IM : Imaging} {A} (a : A) : IO A := (Ok a, []).

Definition io_bind {IM : Imaging} {A B} (m : IO A) (f : A → IO B) : IO B :=
  match m with
  | (Ok a, t) => let '(r, t') := f a in (r, t ++ t')
  | (Raise e, t) => (Raise e, t)
  end.

#[global] Instance IO_ret {IM : Imaging} : MRet IO := @io_ret _.
#[global] Instance IO_bind {IM : Imaging} : MBind IO := λ A B f m, io_bind m f.

Definition io_emit {IM : Imaging} (ev : IOEvent) : IO unit := (Ok tt, [ev]).

Definition io_lift {IM : Imaging} {A} (r : Res A) : IO A := (r, []).

(** A computation of the pipeline, run where printing is traced too. *)
Definition io_of {IM : Imaging} {A} (m : M A) : IO A := (m.1, IOCall <$> m.2).

(** [print(line)] *)
Definition print {IM : Imaging} (line : string) : IO unit := io_emit (IOPrint line).

(** [try: body except Exception as e: handler(e)] *)
Definition io_try {IM : Imaging} {A} (body : IO A) (handler : PyExc → IO A) : IO A :=
  match body with
  | (Ok a, t) => (Ok a, t)
  | (Raise e, t) => let '(r, t') := handler e in (r, t ++ t')
  end.

(** [OCRService.__init__(tesseract_path)]: a non-empty path is stored in
    [pytesseract.pytesseract.tesseract_cmd]; evaluating that name when the
    import failed raises [NameError]. *)
Definition OCRService_init {IM : Imaging} (tesseract_path : option string) : IO OCRService :=
  _ ← match tesseract_path with
      | Some path =>
          if decide (path = ""%string) then mret tt
          else match pytesseract with
               | Some _ => io_emit (IOSetCmd path)
               | None => io_lift (Raise (OtherError "NameError"))
               end
      | None => mret tt
      end;
  mret {| is_configured := TESSERACT_AVAILABLE |}.

(** [Image.open(io.BytesIO(image))] *)
Definition open_image {IM : Imaging} {DG : Diagnostics} (image : list Byte.byte) : IO PILImage :=
  _ ← io_emit (IOOpen image); io_lift (Image_open image).

Definition extract_text {IM : Imaging} {DG : Diagnostics}
    (self : OCRService) (image : list Byte.byte) : IO pystr :=
  if negb TESSERACT_AVAILABLE
  then _ ← print "Warning: Tesseract not available. Install with: pip install pytesseract";
       mret []
  else
    io_try
      (pil_image ← open_image image;
       text ← io_of (image_to_string pil_image "pol+eng" "--psm 6");
       mret (strip text))
      (λ e, _ ← print ("Tesseract OCR Error: " +:+ str_exc e); mret []).

Definition extract_text_from_image {IM : Imaging} {DG : Diagnostics}
    (self : OCRService) (image_array : ndarray) : IO pystr :=
  if negb TESSERACT_AVAILABLE
  then _ ← print "Warning: Tesseract not available"; mret []
  else
    io_try
      (let rgb_image :=
         if (length (shape image_array) =? 3)%nat
         then flip_last_axis image_array
         else image_array in
       pil_image ← io_of (fromarray rgb_image);
       text ← io_of (image_to_string pil_image "pol+eng" "--psm 6");
       mret (strip text))
      (λ e, _ ← print ("Tesseract OCR Error: " +:+ str_exc e); mret []).

(** The values of the status dictionary: [bool] and [str]. *)
Inductive PyVal : Type :=
| VBool (b : bool)
| VStr (s : string).

Definition verify_installation {IM : Imaging} {DG : Diagnostics}
    (self : OCRService) : IO (gmap string PyVal) :=
  if negb TESSERACT_AVAILABLE
  then mret {[ "installed"%string := VBool false;
               "error"%string := VStr "pytesseract not installed";
               "solution"%string := VStr "Run: pip install pytesseract" ]}
  else
    io_try
      (version ← (_ ← io_emit IOVersion; io_lift get_tesseract_version);
       mret {[ "installed"%string := VBool true;
               "version"%string := VStr (str_version version);
               "status"%string := VStr "Ready" ]})
      (λ e,
       mret {[ "installed"%string := VBool false;
               "error"%string := VStr (str_exc e);
               "solution"%string :=
                 VStr "Install Tesseract OCR: https://github.com/UB-Mannheim/tesseract/wiki" ]}).

(** [d[key]]: a missing key raises [KeyError]. *)
Definition getitem {IM : Imaging} (d : gmap string PyVal) (key : string) : IO PyVal :=
  match d !! key with
  | Some v => mret v
  | None => io_lift (Raise (OtherError "KeyError"))
  end.

(** [bool(v)] *)
Definition val_truthy (v : PyVal) : bool :=
  match v with
  | VBool b => b
  | VStr s => negb (String.eqb s "")
  end.

(** [f"{v}"] *)
Definition val_format (v : PyVal) : string :=
  match v with
  | VBool true => "True"
  | VBool false => "False"
  | VStr s => s
  end.

(** ["=" * n] *)
Fixpoint str_repeat (s : string) (n : nat) : string :=
  match n with
  | O => ""
  | S n' => s +:+ str_repeat s n'
  end.

(** The console behind [sys.stdout]: the lines its encoding can take. *)
Class Console : Type := {
  stdout_encodes : string → bool;
}.

Definition ascii_only (line : string) : bool :=
  forallb (λ a, (Ascii.nat_of_ascii a <? 128)%nat) (String.list_ascii_of_string line).

(** ASCII goes through every console; the rest is up to its encoding. *)
Definition printable {CO : Console} (line : string) : bool :=
  ascii_only line || stdout_encodes line.

(** [print(line)] where the line may have characters the console lacks:
    the write then raises [UnicodeEncodeError] and prints nothing. *)
Definition print_line {IM : Imaging} {CO : Console} (line : string) : IO unit :=
  if printable line then io_emit (IOPrint line)
  else io_lift (Raise (OtherError "UnicodeEncodeError")).

Definition check_tesseract {IM : Imaging} {DG : Diagnostics} {CO : Console}
    : IO (gmap string PyVal) :=
  service ← OCRService_init None;
  info ← verify_installation service;
  _ ← print_line (str_repeat "=" 50);
  _ ← print_line "Tesseract OCR Status:";
  _ ← print_line (str_repeat "=" 50);
  installed ← getitem info "installed";
  _ ← (if val_truthy installed
       then version ← getitem info "version";
            _ ← print_line ("✓ Tesseract version: " +:+ val_format version);
            status ← getitem info "status";
            print_line ("✓ Status: " +:+ val_format status)
       else error ← getitem info "error";
            _ ← print_line ("✗ Error: " +:+ val_format error);
            solution ← getitem info "solution";
            print_line ("→ Solution: " +:+ val_format solution));
  _ ← print_line (str_repeat "=" 50);
  mret info.

(** [IDCardOCRProcessor.check_ocr_status] *)
Definition check_ocr_status {IM : Imaging} {DG : Diagnostics}
    (self : IDCardOCRProcessor) : IO (gmap string PyVal) :=
  verify_installation (ocr_service self).

Definition io_value {IM : Imaging} {A} (m : IO A) : Res A := m.1.
Definition io_trace {IM : Imaging} {A} (m : IO A) : list IOEvent := m.2.

(** The lines printed in a trace. *)
Definition printed {IM : Imaging} (t : list IOEvent) : list string :=
  omap (λ ev, match ev with IOPrint line => Some line | _ => None end) t.

(** ** More predicates on traces *)

Definition is_crop {IM : Imaging} (ev : Event) : bool :=
  match ev with EvCrop _ _ _ _ _ => true | _ => false end.

Definition is_recognize {IM : Imaging} (ev : Event) : bool :=
  match ev with EvRecognize _ => true | _ => false end.

Definition is_engine {IM : Imaging} (ev : Event) : bool :=
  match ev with EvEngine _ _ _ => true | _ => false end.

Definition is_validate {IM : Imaging} (ev : Event) : bool :=
  match ev with EvValidate _ => true | _ => false end.

(** The events a loop step can leave. *)
Definition is_field_event {IM : Imaging} (ev : Event) : bool :=
  match ev with
  | EvCrop _ _ _ _ _ | EvRecognize _ | EvFromArray _ | EvEngine _ _ _
  | EvPrint _ | EvClean _ => true
  | _ => false
  end.

Definition count_events {IM : Imaging} (p : Event → bool) (t : list Event) : nat :=
  length (List.filter p t).

(** The zone of [field], if any, scales to finite numbers. *)
Definition field_finite {IM : Imaging} (self : IDCardOCRProcessor)
    (zs : gmap string Zone) (field : string) : bool :=
  match zs !! field with
  | Some zone => zone_finite (target_width self) (target_height self) zone
  | None => true
  end.

(** ** Checks on the extraction rate, run for each possible count *)

(** For [n] extracted fields of 17: the rate times 17 rounds to [n], the
    rate lies in [0, 1], it is 0 only for [n = 0] and 1 only for [n = 17]. *)
Definition rate_checks (n : Z) : bool :=
  let q := truediv n 17 in
  match round_of_float (PrimFloat.mul q 17) with
  | Ok v => (v =? n)
  | Raise _ => false
  end
  && PrimFloat.leb 0 q && PrimFloat.leb q 1
  && Bool.eqb (PrimFloat.eqb q 0) (n =? 0)
  && Bool.eqb (PrimFloat.eqb q 1) (n =? 17).

(** ** A second installation: one zone of the front layout is not a number *)

Module Faulty.

Definition nan_zone : Zone :=
  {| zone_x := PrimFloat.nan; zone_y := 0; zone_width := 0; zone_height := 0 |}.

Definition layout (side : string) : ZonesData :=
  if decide (side = "front"%string)
  then {| zones := {[ "f_nazwisko"%string := Demo.example_zone;
                      "f_plec"%string := nan_zone ]} |}
  else {| zones := {[ "MRZ"%string := Demo.example_zone ]} |}.

Definition processor : @IDCardOCRProcessor Demo.imaging :=
  {| zone_reader := {| load_zones := layout |};
     detector := @Build_DocumentDetector Demo.imaging (λ image, (image, true)) Demo.crop;
     normalizer := @Build_ImageNormalizer Demo.imaging Demo.decode (λ image, image);
     validator := Demo.the_validator;
     ocr_service := {| is_configured := true |};
     target_width := 1000;
     target_height := 630 |}.

Definition show_exc (e : PyExc) : string :=
  match e with
  | ValueError => "ValueError"
  | OverflowError => "OverflowError"
  | ZeroDivisionError => "ZeroDivisionError"
  | OtherError msg => msg
  end.

(** Bytes that do not start with an image header are refused. *)
Definition open_bytes (image : list Byte.byte) : Res (list nat) :=
  match image with
  | [] => Raise (OtherError "UnidentifiedImageError")
  | _ => Ok [10; 10; 3]%nat
  end.

Definition diagnostics : @Diagnostics Demo.imaging :=
  @Build_Diagnostics Demo.imaging open_bytes (nat * nat) (Ok (5, 3)%nat)
    (λ _, "5.3"%string) show_exc.

Definition diagnostics_offline : @Diagnostics Demo.imaging_offline :=
  @Build_Diagnostics Demo.imaging_offline open_bytes (nat * nat) (Raise (OtherError "NameError"))
    (λ _, "5.3"%string) show_exc.

(** pytesseract is there, the tesseract binary is not. *)
Definition diagnostics_no_binary : @Diagnostics Demo.imaging :=
  @Build_Diagnostics Demo.imaging open_bytes (nat * nat) (Raise (OtherError "TesseractNotFoundError"))
    (λ _, "5.3"%string) show_exc.

(** A console that takes ASCII only, and one that takes everything. *)
Definition ascii_console : Console := {| stdout_encodes := λ _, false |}.
Definition utf8_console : Console := {| stdout_encodes := λ _, true |}.

End Faulty.

(** ** The processor as an object

    What a method can read and assign: the attributes of [self], the class
    attributes [FRONT_FIELDS] and [BACK_FIELDS] (two lists shared by every
    call), the global [TESSERACT_AVAILABLE] of [ocr_service.py] and the
    global [tesseract_cmd] of pytesseract.  Here the methods are embedded
    statement by statement over this store: every [self.x], every class
    attribute and every global is read from the store where the source
    reads it.  Calls into the collaborators are calls of functions and leave
    the store alone. *)

Record Store {IM : Imaging} : Type := {
  self_obj : IDCardOCRProcessor;
  cls_FRONT_FIELDS : list string;
  cls_BACK_FIELDS : list string;
  glob_TESSERACT_AVAILABLE : bool;
  glob_tesseract_cmd : option string;
}.

(** A method body: from the store it finds to what it did and the store it
    leaves, also when it raises. *)
Definition OM {IM : Imaging} (A : Type) : Type := Store → M A * Store.

Definition om_ret {IM : Imaging} {A} (a : A) : OM A := λ st, (mret a, st).

Definition om_bind {IM : Imaging} {A B} (m : OM A) (f : A → OM B) : OM B :=
  λ st,
    match m st with
    | ((Ok a, t), st') =>
        let '((r, t'), st'') := f a st' in ((r, t ++ t'), st'')
    | ((Raise e, t), st') => ((Raise e, t), st')
    end.

#[global] Instance OM_ret {IM : Imaging} : MRet OM := @om_ret _.
#[global] Instance OM_bind {IM : Imaging} : MBind OM := λ A B f m, om_bind m f.

(** Reading an attribute or a global. *)
Definition read {IM : Imaging} {A} (get : Store → A) : OM A := λ st, (mret (get st), st).

(** Assigning to an attribute or a global. *)
Definition assign {IM : Imaging} (set : Store → Store) : OM unit := λ st, (mret tt, set st).

(** A call that leaves the two files. *)
Definition call {IM : Imaging} {A} (m : M A) : OM A := λ st, (m, st).

(** [try: body except Exception as e: handler(e)] *)
Definition om_try {IM : Imaging} {A} (body : OM A) (handler : PyExc → OM A) : OM A :=
  λ st,
    match body st with
    | ((Ok a, t), st') => ((Ok a, t), st')
    | ((Raise e, t), st') =>
        let '((r, t'), st'') := handler e st' in ((r, t ++ t'), st'')
    end.

Module Obj.

(** Line 36: [pytesseract.pytesseract.tesseract_cmd = tesseract_path], the
    one assignment to shared state in the two files. *)
Definition set_tesseract_cmd {IM : Imaging} (tesseract_path : string) : OM unit :=
  assign (λ st, {| self_obj := self_obj st;
                   cls_FRONT_FIELDS := cls_FRONT_FIELDS st;
                   cls_BACK_FIELDS := cls_BACK_FIELDS st;
                   glob_TESSERACT_AVAILABLE := glob_TESSERACT_AVAILABLE st;
                   glob_tesseract_cmd := Some tesseract_path |}).

Definition extract_text_from_roi {IM : Imaging} {UD : UnicodeData}
    (image_array : ndarray) : OM pystr :=
  available ← read glob_TESSERACT_AVAILABLE;
  if negb available then mret []
  else
    om_try
      (let rgb_image :=
         if (length (shape image_array) =? 3)%nat
         then flip_last_axis image_array
         else image_array in
       pil_image ← call (fromarray rgb_image);
       text ← call (image_to_string pil_image "pol+eng" "--psm 7");
       let cleaned := strip text in
       let cleaned := join [SPACE] (split cleaned) in
       mret (upper cleaned))
      (λ e, _ ← call (emit (EvPrint e)); mret []).

Definition process_field {IM : Imaging} {UD : UnicodeData}
    (corrected : ndarray) (zs : gmap string Zone) (field : string) : OM pystr :=
  match zs !! field with
  | None => mret []
  | Some zone =>
      width ← read (λ st, target_width (self_obj st));
      height ← read (λ st, target_height (self_obj st));
      '(x, y, w, h) ← call (lift (zone_rect width height zone));
      the_detector ← read (λ st, detector (self_obj st));
      _ ← call (emit (EvCrop corrected x y w h));
      let cropped := crop_zone the_detector corrected x y w h in
      if (size_of cropped =? 0)%nat then mret []
      else
        _ ← read (λ st, ocr_service (self_obj st));
        _ ← call (emit (EvRecognize cropped));
        text ← extract_text_from_roi cropped;
        the_validator ← read (λ st, validator (self_obj st));
        _ ← call (emit (EvClean text));
        let text := clean_text the_validator text in
        mret text
  end.

Fixpoint extract_fields {IM : Imaging} {UD : UnicodeData}
    (corrected : ndarray) (zs : gmap string Zone)
    (fields : list string) (results : gmap string pystr) : OM (gmap string pystr) :=
  match fields with
  | [] => mret results
  | field :: rest =>
      text ← process_field corrected zs field;
      extract_fields corrected zs rest (<[field := text]> results)
  end.

Definition _process_side {IM : Imaging} {UD : UnicodeData}
    (image_base64 : string) (side : string) (fields : list string)
    : OM (gmap string pystr) :=
  the_normalizer ← read (λ st, normalizer (self_obj st));
  _ ← call (emit (EvDecode image_base64));
  match decode_base64 the_normalizer image_base64 with
  | None => mret (empty_results fields)
  | Some image =>
      if (size_of image =? 0)%nat then mret (empty_results fields)
      else
        the_detector ← read (λ st, detector (self_obj st));
        _ ← call (emit (EvDetect image));
        let '(corrected, detected) := process the_detector image in
        corrected ← (if negb detected
                     then the_normalizer ← read (λ st, normalizer (self_obj st));
                          _ ← call (emit (EvNormalize image));
                          mret (normalize_document the_normalizer image)
                     else mret corrected);
        the_reader ← read (λ st, zone_reader (self_obj st));
        _ ← call (emit (EvLoadZones side));
        let zones_data := load_zones the_reader side in
        let zs := zones zones_data in
        results ← extract_fields corrected zs fields ∅;
        the_validator ← read (λ st, validator (self_obj st));
        _ ← call (emit (EvValidate results));
        let results := validate_all the_validator results in
        mret results
  end.

Definition process_front {IM : Imaging} {UD : UnicodeData}
    (image_base64 : string) : OM (gmap string pystr) :=
  fields ← read cls_FRONT_FIELDS;
  _process_side image_base64 "front" fields.

Definition process_back {IM : Imaging} {UD : UnicodeData}
    (image_base64 : string) : OM (gmap string pystr) :=
  fields ← read cls_BACK_FIELDS;
  _process_side image_base64 "back" fields.

Definition process_both {IM : Imaging} {UD : UnicodeData}
    (front_base64 back_base64 : string) : OM CombinedResult :=
  front_results ← process_front front_base64;
  back_results ← process_back back_base64;
  mret (combine front_results back_results).

End Obj.

(** A method body that leaves every store as it found it. *)
Definition keeps_store {IM : Imaging} {A} (m : OM A) : Prop :=
  ∀ st, (m st).2 = st.

(** The store as the import of the two modules and [__init__] leave it. *)
Definition fresh_store {IM : Imaging} (self : IDCardOCRProcessor)
    (tesseract_cmd : option string) : Store :=
  {| self_obj := self;
     cls_FRONT_FIELDS := FRONT_FIELDS;
     cls_BACK_FIELDS := BACK_FIELDS;
     glob_TESSERACT_AVAILABLE := TESSERACT_AVAILABLE;
     glob_tesseract_cmd := tesseract_cmd |}.
(** At the store [st] the body [m] does what the computation [p] does, and
    leaves [st] as it is. *)
Definition at_store {IM : Imaging} {A} (st : Store) (m : OM A) (p : M A) : Prop :=
  m st = (p, st).

(** * Properties *)

(** ** Results and traces of sequenced computations *)

Section Monad.
Context {IM : Imaging}.

Lemma value_bind_Ok {A B} (m : M A) (f : A → M B) a :
  value m = Ok a → value (m ≫= f) = value (f a).
Proof.
  destruct m as [[a'|e] t]; unfold value; simpl; intros [= ->].
  unfold mbind, M_bind, bind. by destruct (f a).
Qed.

Lemma trace_bind_Ok {A B} (m : M A) (f : A → M B) a :
  value m = Ok a → trace (m ≫= f) = trace m ++ trace (f a).
Proof.
  destruct m as [[a'|e] t]; unfold value, trace; simpl; intros [= ->].
  unfold mbind, M_bind, bind. by destruct (f a).
Qed.

Lemma bind_Raise {A B} (m : M A) (f : A → M B) e :
  value m = Raise e → m ≫= f = (Raise e, trace m).
Proof.
  destruct m as [[a'|e'] t]; unfold value, trace; simpl; intros [= ->]. done.
Qed.

Lemma bind_emit {B} (ev : Event) (f : unit → M B) :
  emit ev ≫= f = ((f tt).1, ev :: (f tt).2).
Proof. unfold mbind, M_bind, bind, emit. by destruct (f tt). Qed.

Lemma bind_mret {A B} (a : A) (f : A → M B) : mret a ≫= f = f a.
Proof. unfold mbind, M_bind, bind, mret, M_ret, ret. by destruct (f a). Qed.

Lemma bind_silent {A B} (a : A) (f : A → M B) : (Ok a, []) ≫= f = f a.
Proof. apply bind_mret. Qed.

End Monad.

(** ** The dictionary built when the image cannot be decoded *)

Lemma empty_results_from (fields : list string) (d : gmap string pystr) :
  dom (foldl (λ d field, <[field := []]> d) d fields) = dom d ∪ list_to_set fields
  ∧ ∀ f, f ∈ fields → foldl (λ d field, <[field := []]> d) d fields !! f = Some [].
Proof.
  revert d. induction fields as [|x fields IH]; intros d; simpl.
  - split; [set_solver | intros f Hf; by apply elem_of_nil in Hf].
  - destruct (IH (<[x := []]> d)) as [Hdom Hval]. split.
    + rewrite Hdom, dom_insert_L. set_solver.
    + intros f Hf. destruct (decide (f ∈ fields)) as [Hin|Hnin]; [by apply Hval|].
      apply elem_of_cons in Hf as [->|Hf]; [|done].
      clear -Hnin. revert d. induction fields as [|y fields IH]; intros d; simpl.
      * apply lookup_insert_eq.
      * apply not_elem_of_cons in Hnin as [Hne Hnin].
        rewrite insert_insert_ne by done. by apply IH.
Qed.

Section Decode.
Context {IM : Imaging} {UD : UnicodeData}.

(** The early return of [_process_side]. *)
Lemma process_side_undecoded (self : IDCardOCRProcessor)
    (image_base64 side : string) (fields : list string) :
  (decode_base64 (normalizer self) image_base64 = None
   ∨ ∃ image, decode_base64 (normalizer self) image_base64 = Some image
              ∧ size_of image = 0%nat) →
  _process_side self image_base64 side fields
    = (Ok (empty_results fields), [EvDecode image_base64]).
Proof.
  intros Hdec. unfold _process_side. rewrite bind_emit.
  destruct Hdec as [->|(image & -> & Hsz)]; [done|].
  by rewrite Hsz.
Qed.

Lemma empty_results_spec (fields : list string) :
  dom (empty_results fields) = list_to_set fields
  ∧ ∀ f, f ∈ fields → empty_results fields !! f = Some [].
Proof.
  destruct (empty_results_from fields ∅) as [Hdom Hval].
  split; [|exact Hval].
  unfold empty_results. rewrite Hdom. set_solver.
Qed.

(** C4. When the decoder returns [None] or an image of size 0,
    [_process_side] does nothing but the decode call: no detection, no
    normalisation, no zone loading, no crop, no recognition, no
    validation.  It returns the dictionary whose keys are exactly [fields],
    each mapped to the empty string. *)
Theorem decode_failure_all_empty (self : IDCardOCRProcessor)
    (image_base64 side : string) (fields : list string) :
  (decode_base64 (normalizer self) image_base64 = None
   ∨ ∃ image, decode_base64 (normalizer self) image_base64 = Some image
              ∧ size_of image = 0%nat) →
  _process_side self image_base64 side fields
    = (Ok (empty_results fields), [EvDecode image_base64])
  ∧ dom (empty_results fields) = list_to_set fields
  ∧ ∀ f, f ∈ fields → empty_results fields !! f = Some [].
Proof.
  intros Hdec. split; [by apply process_side_undecoded|apply empty_results_spec].
Qed.

End Decode.

Lemma decode_failure_all_empty_witness :
  @_process_side _ Demo.ascii_unicode Demo.online "" "front" FRONT_FIELDS
    = (Ok (empty_results FRONT_FIELDS), [EvDecode ""])
  ∧ dom (empty_results FRONT_FIELDS) = list_to_set FRONT_FIELDS
  ∧ ∀ f, f ∈ FRONT_FIELDS → empty_results FRONT_FIELDS !! f = Some [].
Proof.
  apply (@decode_failure_all_empty _ Demo.ascii_unicode Demo.online "" "front" FRONT_FIELDS).
  left. reflexivity.
Defined.

(** ** Whitespace and case of the text the service returns *)

Lemma split_from_words (s cur : pystr) :
  Forall (λ c, isspace c = false) cur → Forall word (split_from cur s).
Proof.
  revert cur. induction s as [|c s IH]; intros cur Hcur; simpl.
  - destruct cur as [|d cur]; [constructor|].
    constructor; [|constructor]. split.
    + simpl. intros Heq. by apply app_eq_nil in Heq as [_ [=]].
    + by apply List.Forall_rev.
  - destruct (isspace c) eqn:Hc.
    + destruct cur as [|d cur]; [by apply IH|].
      constructor; [|by apply IH]. split.
      * simpl. intros Heq. by apply app_eq_nil in Heq as [_ [=]].
      * by apply List.Forall_rev.
    + apply IH. by constructor.
Qed.

Lemma split_words (s : pystr) : Forall word (split s).
Proof. apply split_from_words. constructor. Qed.

Lemma single_spaces_cons_nonspace (c : N) (s : pystr) :
  isspace c = false → single_spaces s → single_spaces (c :: s).
Proof.
  intros Hc Hs [|i] d Hd Hsp; simpl in *.
  - congruence.
  - by apply Hs.
Qed.

Lemma single_spaces_cons_space (s : pystr) :
  no_leading_space s → single_spaces s → single_spaces (SPACE :: s).
Proof.
  intros Hl Hs [|i] d Hd Hsp; simpl in *.
  - split; [congruence|]. intros c' Hc'. apply Hl. by rewrite head_lookup.
  - by apply Hs.
Qed.

Lemma single_spaces_word (w : pystr) :
  Forall (λ c, isspace c = false) w → single_spaces w.
Proof.
  intros Hw i c Hc Hsp.
  assert (isspace c = false); [|congruence].
  by eapply (Forall_lookup_1 _ _ _ _ Hw).
Qed.

Lemma single_spaces_app_word (w s : pystr) :
  Forall (λ c, isspace c = false) w → single_spaces s → single_spaces (w ++ s).
Proof.
  induction 1 as [|c w Hc Hw IH]; intros Hs; simpl; [done|].
  apply single_spaces_cons_nonspace; auto.
Qed.

Lemma no_leading_space_word (w s : pystr) :
  word w → no_leading_space (w ++ s).
Proof.
  intros [Hne Hw] c. destruct w as [|d w]; [done|]. simpl. intros [= <-].
  by inversion Hw.
Qed.

Lemma no_trailing_space_word (w : pystr) :
  Forall (λ c, isspace c = false) w → no_trailing_space w.
Proof.
  intros Hw c Hc. apply last_Some_elem_of in Hc.
  revert c Hc. by apply Forall_forall.
Qed.

Lemma join_words_nonempty (ws : list pystr) :
  Forall word ws → ws ≠ [] → join [SPACE] ws ≠ [].
Proof.
  intros Hws Hne. destruct ws as [|w ws]; [done|].
  inversion Hws as [|? ? [Hw _] _]; subst.
  destruct ws; simpl; [done|]. destruct w; [done|discriminate].
Qed.

(** Words joined by one space: no whitespace at either end, and every
    whitespace character is a lone U+0020. *)
Lemma join_words_spacing (ws : list pystr) :
  Forall word ws →
  no_leading_space (join [SPACE] ws)
  ∧ no_trailing_space (join [SPACE] ws)
  ∧ single_spaces (join [SPACE] ws).
Proof.
  induction 1 as [|w ws Hw Hws IH].
  - split; [|split]; [by intros ? | by intros ? | by intros [|?] ?].
  - destruct ws as [|w' ws].
    + simpl. destruct Hw as [Hne Hall]. split; [|split].
      * rewrite <-(app_nil_r w). by apply no_leading_space_word.
      * by apply no_trailing_space_word.
      * by apply single_spaces_word.
    + destruct IH as (Hl & Ht & Hs).
      change (join [SPACE] (w :: w' :: ws))
        with (w ++ SPACE :: join [SPACE] (w' :: ws)).
      split; [|split].
      * by apply no_leading_space_word.
      * intros c. rewrite last_app, last_cons.
        pose proof (join_words_nonempty (w' :: ws) Hws ltac:(done)) as Hne.
        apply last_is_Some in Hne as [y Hy]. rewrite Hy. intros [= <-]. by apply Ht.
      * apply single_spaces_app_word; [apply Hw|].
        by apply single_spaces_cons_space.
Qed.

Section Upper.
Context {UD : UnicodeData} {UL : UnicodeLaws UD}.

Lemma upper_app (s1 s2 : pystr) : upper (s1 ++ s2) = upper s1 ++ upper s2.
Proof. unfold upper. apply flat_map_app. Qed.

Lemma upper_upper (s : pystr) : upper (upper s) = upper s.
Proof.
  induction s as [|c s IH]; [done|].
  change (upper (c :: s)) with (upper_char c ++ upper s).
  rewrite upper_app, IH. f_equal. apply upper_idem.
Qed.

Lemma upper_word (w : pystr) : word w → word (upper w).
Proof.
  intros [Hne Hw]. split.
  - destruct w as [|c w]; [done|]. inversion Hw as [|? ? Hc _]; subst.
    destruct (upper_nonspace c Hc) as [Hn _].
    change (upper (c :: w)) with (upper_char c ++ upper w).
    intros Heq. by apply app_eq_nil in Heq as [? _].
  - clear Hne. induction Hw as [|c w Hc Hw IH]; [constructor|].
    change (upper (c :: w)) with (upper_char c ++ upper w).
    apply Forall_app. split; [|done]. by apply upper_nonspace.
Qed.

Lemma upper_join (ws : list pystr) :
  upper (join [SPACE] ws) = join [SPACE] (map upper ws).
Proof.
  induction ws as [|w ws IH]; [done|].
  destruct ws as [|w' ws]; [done|].
  change (join [SPACE] (w :: w' :: ws))
    with (w ++ [SPACE] ++ join [SPACE] (w' :: ws)).
  rewrite !upper_app, IH. simpl. do 2 f_equal.
  unfold upper. simpl. rewrite (upper_space SPACE) by done. done.
Qed.

(** What lines 139-143 of [ocr_service.py] make of any engine output. *)
Lemma cleaned_text_normalized (text : pystr) :
  normalized (upper (join [SPACE] (split (strip text)))).
Proof.
  right. split; [apply upper_upper|].
  rewrite upper_join. apply join_words_spacing.
  apply Forall_map. eapply Forall_impl; [apply split_words|].
  intros w. apply upper_word.
Qed.

End Upper.

(** ** The recognition service *)

Section Service.
Context {IM : Imaging} {UD : UnicodeData}.

Ltac run_M :=
  unfold mbind, M_bind, bind, emit, lift, try_except, mret, M_ret, ret; simpl.

(** The four ways a call of [extract_text_from_roi] can go. *)
Lemma extract_text_from_roi_cases (self : OCRService) (roi : ndarray) :
  (TESSERACT_AVAILABLE = false
   ∧ extract_text_from_roi self roi = (Ok [], []))
  ∨ (∃ e, TESSERACT_AVAILABLE = true
       ∧ Image_fromarray (rgb_of roi) = Raise e
       ∧ extract_text_from_roi self roi
         = (Ok [], [EvFromArray (rgb_of roi); EvPrint e]))
  ∨ (∃ pil engine e, pytesseract = Some engine
       ∧ Image_fromarray (rgb_of roi) = Ok pil
       ∧ engine pil "pol+eng"%string "--psm 7"%string = Raise e
       ∧ extract_text_from_roi self roi
         = (Ok [], [EvFromArray (rgb_of roi);
                    EvEngine pil "pol+eng" "--psm 7"; EvPrint e]))
  ∨ (∃ pil engine text, pytesseract = Some engine
       ∧ Image_fromarray (rgb_of roi) = Ok pil
       ∧ engine pil "pol+eng"%string "--psm 7"%string = Ok text
       ∧ extract_text_from_roi self roi
         = (Ok (upper (join [SPACE] (split (strip text)))),
            [EvFromArray (rgb_of roi); EvEngine pil "pol+eng" "--psm 7"])).
Proof.
  unfold extract_text_from_roi, TESSERACT_AVAILABLE, image_to_string, fromarray.
  fold (rgb_of roi).
  destruct pytesseract as [engine|] eqn:Hpy; simpl; [|by left].
  right. destruct (Image_fromarray (rgb_of roi)) as [pil|e] eqn:Hpil.
  - right. destruct (engine pil "pol+eng"%string "--psm 7"%string) as [text|e] eqn:Hrun.
    + right. exists pil, engine, text. run_M. by rewrite Hrun.
    + left. exists pil, engine, e. run_M. by rewrite Hrun.
  - left. exists e. by run_M.
Qed.

(** No exception leaves [extract_text_from_roi]. *)
Lemma extract_text_from_roi_returns (self : OCRService) (roi : ndarray) :
  ∃ text, value (extract_text_from_roi self roi) = Ok text.
Proof.
  destruct (extract_text_from_roi_cases self roi)
    as [[_ ->]|[(e & _ & _ & ->)|[(pil & engine & e & _ & _ & _ & ->)
       |(pil & engine & text & _ & _ & _ & ->)]]]; eauto.
Qed.

Lemma extract_text_from_roi_failure (self : OCRService) (roi : ndarray) :
  TESSERACT_AVAILABLE = false ∨ recognition_raises roi →
  value (extract_text_from_roi self roi) = Ok []
  ∧ Forall (λ ev, match ev with EvEngine _ _ _ => TESSERACT_AVAILABLE = true | _ => True end)
           (trace (extract_text_from_roi self roi)).
Proof.
  intros Hfail.
  destruct (extract_text_from_roi_cases self roi)
    as [[_ ->]|[(e & _ & _ & ->)|[(pil & engine & e & Hpy & _ & _ & ->)
       |(pil & engine & text & Hpy & Hpil & Hrun & ->)]]]; simpl.
  - by split.
  - split; [done|]. by repeat constructor.
  - split; [done|]. unfold TESSERACT_AVAILABLE. rewrite Hpy. by repeat constructor.
  - exfalso. destruct Hfail as [Hoff|[(e & He)|(pil' & engine' & e & Hpil' & Hpy' & Hrun')]].
    + unfold TESSERACT_AVAILABLE in Hoff. by rewrite Hpy in Hoff.
    + congruence.
    + congruence.
Qed.

Lemma extract_text_from_roi_normalized `{!UnicodeLaws UD} (self : OCRService) (roi : ndarray) :
  ∃ text, value (extract_text_from_roi self roi) = Ok text ∧ normalized text.
Proof.
  destruct (extract_text_from_roi_cases self roi)
    as [[_ ->]|[(e & _ & _ & ->)|[(pil & engine & e & _ & _ & _ & ->)
       |(pil & engine & text & _ & _ & _ & ->)]]]; simpl;
    eexists; (split; [reflexivity|]); try (by left).
  apply cleaned_text_normalized.
Qed.

End Service.

(** ** Scaling a zone to pixels *)

Lemma quot_truncation (num den : Z) :
  0 < den → truncation_of num den (Z.quot num den).
Proof.
  intros Hden. unfold truncation_of.
  pose proof (Z.quot_rem' num den) as Hqr.
  destruct (Z.le_gt_cases 0 num) as [Hn|Hn].
  - pose proof (Z.rem_bound_pos num den Hn Hden).
    pose proof (Z.quot_pos num den Hn Hden). nia.
  - pose proof (Z.rem_bound_pos_neg num den Hden ltac:(lia)).
    pose proof (Z.mul_quot_ge num den ltac:(lia) ltac:(lia)). nia.
Qed.

Lemma finite_den_pos (e : Z) : 0 < finite_den e.
Proof. unfold finite_den. apply Z.pow_pos_nonneg; lia. Qed.

Lemma int_of_float_finite (f : float) :
  float_finite f = true →
  ∃ v num den, int_of_float f = Ok v
    ∧ float_fraction f = Some (num, den) ∧ 0 < den ∧ truncation_of num den v.
Proof.
  unfold float_finite, int_of_float, float_fraction.
  destruct (Prim2SF f) as [s|s| |s m e]; intros Hfin; try discriminate.
  - exists 0, 0, 1. repeat split; lia.
  - eexists _, _, _. split; [reflexivity|]. split; [reflexivity|].
    split; [apply finite_den_pos|]. apply quot_truncation, finite_den_pos.
Qed.

Lemma scalable_scale (c : float) (n : Z) :
  scalable c n = true → ∃ v, scale c n = Ok v ∧ truncated_product c n v.
Proof.
  unfold scalable, scale, truncated_product.
  destruct (mul_float_int c n) as [p|e]; [|discriminate].
  intros Hfin. destruct (int_of_float_finite p Hfin) as (v & num & den & Hv & Hfr & Hden & Htr).
  exists v. split; [done|]. by exists p, num, den.
Qed.

Lemma zone_finite_rect (width height : Z) (zone : Zone) :
  zone_finite width height zone = true →
  ∃ x y w h, zone_rect width height zone = Ok (x, y, w, h)
    ∧ truncated_product (zone_x zone) width x
    ∧ truncated_product (zone_y zone) height y
    ∧ truncated_product (zone_width zone) width w
    ∧ truncated_product (zone_height zone) height h.
Proof.
  unfold zone_finite. rewrite !andb_true_iff. intros [[[Hx Hy] Hw] Hh].
  destruct (scalable_scale _ _ Hx) as (x & Ex & Tx).
  destruct (scalable_scale _ _ Hy) as (y & Ey & Ty).
  destruct (scalable_scale _ _ Hw) as (w & Ew & Tw).
  destruct (scalable_scale _ _ Hh) as (h & Eh & Th).
  exists x, y, w, h. unfold zone_rect. by rewrite Ex, Ey, Ew, Eh.
Qed.

(** ** One field, the loop over the fields, one side *)

Section Pipeline.
Context {IM : Imaging} {UD : UnicodeData}.
Implicit Types (self : IDCardOCRProcessor) (corrected : ndarray).
Implicit Types (zs : gmap string Zone) (results : gmap string pystr).

Ltac run_M :=
  unfold mbind, M_bind, bind, emit, lift, try_except, mret, M_ret, ret; simpl.

Lemma process_field_absent self corrected zs field :
  zs !! field = None → process_field self corrected zs field = (Ok [], []).
Proof. intros Hz. unfold process_field. by rewrite Hz. Qed.

Lemma process_field_raises self corrected zs field zone e :
  zs !! field = Some zone →
  zone_rect (target_width self) (target_height self) zone = Raise e →
  process_field self corrected zs field = (Raise e, []).
Proof. intros Hz Hr. unfold process_field. rewrite Hz, Hr. by run_M. Qed.

Lemma process_field_flat self corrected zs field zone x y w h :
  zs !! field = Some zone →
  zone_rect (target_width self) (target_height self) zone = Ok (x, y, w, h) →
  size_of (crop_zone (detector self) corrected x y w h) = 0%nat →
  process_field self corrected zs field = (Ok [], [EvCrop corrected x y w h]).
Proof. intros Hz Hr Hs. unfold process_field. rewrite Hz, Hr. run_M. by rewrite Hs. Qed.

Lemma process_field_recognized self corrected zs field zone x y w h :
  zs !! field = Some zone →
  zone_rect (target_width self) (target_height self) zone = Ok (x, y, w, h) →
  size_of (crop_zone (detector self) corrected x y w h) ≠ 0%nat →
  let roi := crop_zone (detector self) corrected x y w h in
  ∃ text, value (extract_text_from_roi (ocr_service self) roi) = Ok text
    ∧ process_field self corrected zs field
      = (Ok (clean_text (validator self) text),
         EvCrop corrected x y w h :: EvRecognize roi
           :: trace (extract_text_from_roi (ocr_service self) roi) ++ [EvClean text]).
Proof.
  intros Hz Hr Hs roi.
  destruct (extract_text_from_roi_returns (ocr_service self) roi) as [text Htext].
  exists text. split; [done|].
  unfold process_field. rewrite Hz, Hr. run_M.
  apply Nat.eqb_neq in Hs. rewrite Hs. fold roi.
  destruct (extract_text_from_roi (ocr_service self) roi) as [r t].
  unfold value in Htext. simpl in *. by subst r.
Qed.

(** The first thing [process_field] does for a field of the layout is to
    crop at the rectangle of its zone. *)
Lemma process_field_crops self corrected zs field zone x y w h :
  zs !! field = Some zone →
  zone_rect (target_width self) (target_height self) zone = Ok (x, y, w, h) →
  head (trace (process_field self corrected zs field)) = Some (EvCrop corrected x y w h).
Proof.
  intros Hz Hr.
  destruct (decide (size_of (crop_zone (detector self) corrected x y w h) = 0%nat)) as [Hs|Hs].
  - by rewrite (process_field_flat _ _ _ _ _ _ _ _ _ Hz Hr Hs).
  - destruct (process_field_recognized _ _ _ _ _ _ _ _ _ Hz Hr Hs) as (text & _ & ->). done.
Qed.

(** A field whose zone, if any, is finite yields a text. *)
Lemma process_field_returns self corrected zs field :
  (∀ zone, zs !! field = Some zone →
     zone_finite (target_width self) (target_height self) zone = true) →
  ∃ text, value (process_field self corrected zs field) = Ok text.
Proof.
  intros Hfin. destruct (zs !! field) as [zone|] eqn:Hz.
  - destruct (zone_finite_rect _ _ _ (Hfin zone eq_refl)) as (x & y & w & h & Hr & _).
    destruct (decide (size_of (crop_zone (detector self) corrected x y w h) = 0%nat)) as [Hs|Hs].
    + rewrite (process_field_flat _ _ _ _ _ _ _ _ _ Hz Hr Hs). by eexists.
    + destruct (process_field_recognized _ _ _ _ _ _ _ _ _ Hz Hr Hs) as (text & _ & ->).
      by eexists.
  - rewrite (process_field_absent _ _ _ _ Hz). by eexists.
Qed.

(** Texts reach [clean_text] only from the recognition service. *)
Lemma process_field_cleans self corrected zs field text :
  text ∈ cleaned_inputs (trace (process_field self corrected zs field)) →
  ∃ roi, value (extract_text_from_roi (ocr_service self) roi) = Ok text.
Proof.
  destruct (zs !! field) as [zone|] eqn:Hz.
  2:{ rewrite (process_field_absent _ _ _ _ Hz). simpl. by intros ?%elem_of_nil. }
  destruct (zone_rect (target_width self) (target_height self) zone)
    as [[[[x y] w] h]|e] eqn:Hr.
  2:{ rewrite (process_field_raises _ _ _ _ _ _ Hz Hr). simpl. by intros ?%elem_of_nil. }
  destruct (decide (size_of (crop_zone (detector self) corrected x y w h) = 0%nat)) as [Hs|Hs].
  { rewrite (process_field_flat _ _ _ _ _ _ _ _ _ Hz Hr Hs). simpl. by intros ?%elem_of_nil. }
  destruct (process_field_recognized _ _ _ _ _ _ _ _ _ Hz Hr Hs) as (text' & Htext & ->).
  intros Hin. exists (crop_zone (detector self) corrected x y w h).
  enough (text = text') by by subst.
  revert Hin. unfold trace at 1, cleaned_inputs. simpl.
  rewrite omap_app. simpl.
  destruct (extract_text_from_roi_cases (ocr_service self)
              (crop_zone (detector self) corrected x y w h))
    as [[_ ->]|[(e & _ & _ & ->)|[(pil & engine & e & _ & _ & _ & ->)
       |(pil & engine & t & _ & _ & _ & ->)]]]; simpl;
    by intros ->%list_elem_of_singleton.
Qed.

(** The loop: when every field yields a text, so does the loop, and the
    dictionary it returns has one more key per field. *)
Lemma extract_fields_returns self corrected zs fields results :
  (∀ f, f ∈ fields → ∃ text, value (process_field self corrected zs f) = Ok text) →
  ∃ out, value (extract_fields self corrected zs fields results) = Ok out
    ∧ dom out = dom results ∪ list_to_set fields
    ∧ (∀ k, k ∉ fields → out !! k = results !! k)
    ∧ (∀ k text, k ∈ fields →
         value (process_field self corrected zs k) = Ok text → out !! k = Some text).
Proof.
  revert results. induction fields as [|f fields IH]; intros results Hall.
  - exists results. simpl. split; [done|]. split; [set_solver|]. split; [done|].
    intros k text Hk. by apply elem_of_nil in Hk.
  - destruct (Hall f ltac:(left)) as [text Hf].
    destruct (IH (<[f := text]> results)) as (out & Hout & Hdom & Hold & Hnew).
    { intros g Hg. apply Hall. by right. }
    exists out. split; [|split; [|split]].
    + simpl. by rewrite (value_bind_Ok _ _ _ Hf).
    + rewrite Hdom, dom_insert_L. set_solver.
    + intros k [Hkf Hk]%not_elem_of_cons. rewrite Hold by done.
      by rewrite lookup_insert_ne.
    + intros k text' [->|Hk]%elem_of_cons Hk'.
      * destruct (decide (f ∈ fields)) as [Hin|Hnin]; [by apply Hnew|].
        rewrite Hold by done. rewrite lookup_insert_eq. congruence.
      * by apply Hnew.
Qed.

(** Every event of the loop's trace is an event of some field. *)
Lemma extract_fields_trace self corrected zs fields results ev :
  ev ∈ trace (extract_fields self corrected zs fields results) →
  ∃ f, f ∈ fields ∧ ev ∈ trace (process_field self corrected zs f).
Proof.
  revert results. induction fields as [|f fields IH]; intros results; simpl.
  - by intros ?%elem_of_nil.
  - destruct (process_field self corrected zs f) as [[text|e] t] eqn:Hf.
    + rewrite (trace_bind_Ok _ _ text) by done.
      intros [Hin|Hin]%elem_of_app.
      * exists f. split; [left|]. by rewrite Hf.
      * destruct (IH _ Hin) as (g & Hg & Hev). exists g. split; [by right|done].
    + rewrite (bind_Raise _ _ e) by done. intros Hin.
      exists f. split; [left|]. by rewrite Hf.
Qed.

(** One side, once the image is decoded and not empty. *)
Lemma process_side_decoded self image_base64 side fields image :
  decode_base64 (normalizer self) image_base64 = Some image →
  size_of image ≠ 0%nat →
  let corrected := corrected_image self image in
  let zs := zones (load_zones (zone_reader self) side) in
  let loop := extract_fields self corrected zs fields ∅ in
  (∀ out, value loop = Ok out →
     value (_process_side self image_base64 side fields)
       = Ok (validate_all (validator self) out))
  ∧ (∀ e, value loop = Raise e →
     value (_process_side self image_base64 side fields) = Raise e)
  ∧ (∀ ev, ev ∈ trace (_process_side self image_base64 side fields) →
       ev ∈ trace loop ∨ cleaned_inputs [ev] = []).
Proof.
  intros Hdec Hsz corrected zs loop.
  apply Nat.eqb_neq in Hsz.
  assert (∃ pre, _process_side self image_base64 side fields
            = match loop with
              | (Ok out, t) =>
                  (Ok (validate_all (validator self) out), pre ++ t ++ [EvValidate out])
              | (Raise e, t) => (Raise e, pre ++ t)
              end
            ∧ cleaned_inputs pre = []) as (pre & Heq & Hpre).
  { unfold _process_side. rewrite bind_emit, Hdec, Hsz, bind_emit.
    subst loop zs corrected. unfold corrected_image.
    destruct (process (detector self) image) as [c detected].
    destruct detected; simpl.
    - destruct (extract_fields _ _ _ _ _) as [[out|e] t]; run_M;
        by exists [EvDecode image_base64; EvDetect image; EvLoadZones side].
    - destruct (extract_fields _ _ _ _ _) as [[out|e] t]; run_M;
        by exists [EvDecode image_base64; EvDetect image; EvNormalize image;
                   EvLoadZones side]. }
  rewrite Heq. destruct loop as [[out|e] t]; unfold value, trace; simpl.
  - split; [by intros ? [= ->]|]. split; [done|].
    intros ev [Hin|[Hin|Hin]%elem_of_app]%elem_of_app.
    + right. unfold cleaned_inputs in *. simpl.
      destruct ev; try done.
      assert (text ∈ omap (λ ev, match ev with EvClean text => Some text | _ => None end) pre)
        as Hbad by (apply list_elem_of_omap; eexists; split; [exact Hin|done]).
      rewrite Hpre in Hbad. by apply elem_of_nil in Hbad.
    + by left.
    + right. apply list_elem_of_singleton in Hin as ->. done.
  - split; [done|]. split; [by intros ? [= ->]|].
    intros ev [Hin|Hin]%elem_of_app.
    + right. unfold cleaned_inputs in *. simpl.
      destruct ev; try done.
      assert (text ∈ omap (λ ev, match ev with EvClean text => Some text | _ => None end) pre)
        as Hbad by (apply list_elem_of_omap; eexists; split; [exact Hin|done]).
      rewrite Hpre in Hbad. by apply elem_of_nil in Hbad.
    + by left.
Qed.

End Pipeline.

(** ** The installation of [Demo] meets the assumptions of the statements *)

Lemma ascii_unicode_laws : UnicodeLaws Demo.ascii_unicode.
Proof.
  split; simpl; unfold Demo.ascii_upper_char.
  - intros c Hc. destruct ((97 <=? c) && (c <=? 122))%N eqn:Hrange; [|done].
    exfalso. apply andb_true_iff in Hrange as [H1%N.leb_le H2%N.leb_le].
    unfold isspace in Hc.
    rewrite !orb_true_iff, !andb_true_iff, !N.leb_le, !N.eqb_eq in Hc. lia.
  - intros c Hc. destruct ((97 <=? c) && (c <=? 122))%N eqn:Hrange.
    + split; [done|]. constructor; [|constructor].
      apply andb_true_iff in Hrange as [H1%N.leb_le H2%N.leb_le].
      apply not_true_iff_false. unfold isspace.
      rewrite !orb_true_iff, !andb_true_iff, !N.leb_le, !N.eqb_eq. lia.
    + split; [done|]. by constructor.
  - intros c. destruct ((97 <=? c) && (c <=? 122))%N eqn:Hrange; simpl.
    + apply andb_true_iff in Hrange as [H1%N.leb_le H2%N.leb_le].
      destruct ((97 <=? c - 32) && (c - 32 <=? 122))%N eqn:Hup; [|done].
      apply andb_true_iff in Hup as [H3%N.leb_le H4%N.leb_le]. lia.
    + by rewrite Hrange.
Qed.

Lemma demo_layout_finite (IM : Imaging) decode crop :
  layout_finite (Demo.processor IM decode crop).
Proof.
  intros side field zone. simpl. unfold Demo.layout.
  destruct (decide (side = "front"%string)); simpl; intros Hz.
  - apply lookup_insert_Some in Hz as [[_ <-]|[_ Hz]]; [by vm_compute|].
    apply lookup_insert_Some in Hz as [[_ <-]|[_ Hz]]; [by vm_compute|].
    apply lookup_singleton_Some in Hz as [_ <-]. by vm_compute.
  - apply lookup_singleton_Some in Hz as [_ <-]. by vm_compute.
Qed.

Lemma demo_keeps_keys : keeps_keys Demo.the_validator.
Proof. by intros m. Qed.

Lemma demo_keeps_empty : keeps_empty Demo.the_validator.
Proof. by intros m k Hk. Qed.

(** ** The pixel rectangle of a zone *)

(** C1, as the specification words it, fails on its own example: with
    [round] the rectangle of the zone [(0.1, 0.1, 0.2, 0.05)] in the
    1000x630 frame is [(100, 63, 200, 32)], but [zone_rect] yields
    [(100, 63, 200, 31)], since [0.05 * 630] is [31.5] and [int] drops the
    fraction. *)
Lemma rect_is_not_rounded :
  spec_zone_rect 1000 630 Demo.example_zone = Ok (100, 63, 200, 32)
  ∧ zone_rect 1000 630 Demo.example_zone ≠ Ok (100, 63, 200, 32)
  ∧ zone_rect 1000 630 Demo.example_zone ≠ spec_zone_rect 1000 630 Demo.example_zone.
Proof. vm_compute. repeat split; discriminate. Qed.

Section Rect.
Context {IM : Imaging} {UD : UnicodeData}.

(** C1, amended.  For every zone whose scaled coordinates are finite, the
    rectangle is made of the four products [zone.x * target_width],
    [zone.y * target_height], [zone.width * target_width] and
    [zone.height * target_height], each computed in floating point and
    truncated toward zero by [int]; it is the rectangle at which
    [_process_side] crops for a field laid out on that zone.  For the
    1000x630 frame and the zone [(0.1, 0.1, 0.2, 0.05)] it is
    [(100, 63, 200, 31)]. *)
Theorem rect_truncates :
  (∀ (self : IDCardOCRProcessor) (corrected : ndarray)
     (zs : gmap string Zone) (field : string) (zone : Zone),
     zs !! field = Some zone →
     zone_finite (target_width self) (target_height self) zone = true →
     ∃ x y w h,
       zone_rect (target_width self) (target_height self) zone = Ok (x, y, w, h)
       ∧ truncated_product (zone_x zone) (target_width self) x
       ∧ truncated_product (zone_y zone) (target_height self) y
       ∧ truncated_product (zone_width zone) (target_width self) w
       ∧ truncated_product (zone_height zone) (target_height self) h
       ∧ head (trace (process_field self corrected zs field))
         = Some (EvCrop corrected x y w h))
  ∧ zone_rect 1000 630 Demo.example_zone = Ok (100, 63, 200, 31).
Proof.
  split; [|by vm_compute].
  intros self corrected zs field zone Hz Hfin.
  destruct (zone_finite_rect _ _ _ Hfin) as (x & y & w & h & Hr & Tx & Ty & Tw & Th).
  exists x, y, w, h. repeat (split; [done|]).
  by eapply process_field_crops.
Qed.

End Rect.

Lemma rect_truncates_witness :
  ∃ x y w h,
    zone_rect 1000 630 Demo.example_zone = Ok (x, y, w, h)
    ∧ truncated_product (zone_x Demo.example_zone) 1000 x
    ∧ truncated_product (zone_y Demo.example_zone) 630 y
    ∧ truncated_product (zone_width Demo.example_zone) 1000 w
    ∧ truncated_product (zone_height Demo.example_zone) 630 h
    ∧ head (trace (@process_field _ Demo.ascii_unicode Demo.online [630; 1000; 3]%nat
                     (zones (Demo.layout "front")) "f_nazwisko"))
      = Some (EvCrop (IM := Demo.imaging) [630; 1000; 3]%nat x y w h).
Proof.
  apply (proj1 (@rect_truncates Demo.imaging Demo.ascii_unicode) Demo.online).
  - reflexivity.
  - vm_compute. reflexivity.
Defined.

(** ** One side of the card *)

Section Side.
Context {IM : Imaging} {UD : UnicodeData}.
Implicit Types (self : IDCardOCRProcessor).

(** With a finite layout [_process_side] returns, in one of two ways. *)
Lemma process_side_returns self image_base64 side fields :
  layout_finite self →
  ((decode_base64 (normalizer self) image_base64 = None
    ∨ ∃ image, decode_base64 (normalizer self) image_base64 = Some image
               ∧ size_of image = 0%nat)
   ∧ value (_process_side self image_base64 side fields) = Ok (empty_results fields))
  ∨ (∃ image out,
       decode_base64 (normalizer self) image_base64 = Some image
       ∧ size_of image ≠ 0%nat
       ∧ value (_process_side self image_base64 side fields)
         = Ok (validate_all (validator self) out)
       ∧ dom out = list_to_set fields
       ∧ ∀ k text, k ∈ fields →
           value (process_field self (corrected_image self image)
                    (zones (load_zones (zone_reader self) side)) k) = Ok text →
           out !! k = Some text).
Proof.
  intros Hfin.
  destruct (decode_base64 (normalizer self) image_base64) as [image|] eqn:Hdec.
  2:{ left. split; [by left|].
      by rewrite (process_side_undecoded self image_base64 side fields) by (by left). }
  destruct (decide (size_of image = 0%nat)) as [Hsz|Hsz].
  { left. split; [right; by exists image|].
    by rewrite (process_side_undecoded self image_base64 side fields)
      by (right; by exists image). }
  right.
  destruct (extract_fields_returns self (corrected_image self image)
              (zones (load_zones (zone_reader self) side)) fields ∅)
    as (out & Hout & Hdom & _ & Hnew).
  { intros f _. apply process_field_returns. intros zone Hz. by eapply Hfin. }
  destruct (process_side_decoded self image_base64 side fields image Hdec Hsz)
    as (Hok & _ & _).
  exists image, out. repeat (split; [done|]). split; [by apply Hok|].
  split; [|done]. rewrite Hdom. set_solver.
Qed.

Lemma process_side_keys self image_base64 side fields :
  layout_finite self →
  keeps_keys (validator self) →
  ∃ r, value (_process_side self image_base64 side fields) = Ok r
    ∧ dom r = list_to_set fields.
Proof.
  intros Hfin Hkeys.
  destruct (process_side_returns self image_base64 side fields Hfin)
    as [[Hdec Hv]|(image & out & _ & _ & Hv & Hdom & _)].
  - exists (empty_results fields). split; [done|]. apply empty_results_spec.
  - exists (validate_all (validator self) out). split; [done|]. by rewrite Hkeys.
Qed.

(** C2. With a finite zone layout and a validator whose whole-mapping step
    keeps the key set, [_process_side] returns for every input, decodable
    or not, and the keys of the dictionary it returns are exactly the
    fields it was given, each mapped to a string.  So the keys of
    [process_front] are [FRONT_FIELDS] and those of [process_back] are
    [BACK_FIELDS]. *)
Theorem side_result_keys self (image_base64 side : string) (fields : list string) :
  layout_finite self →
  keeps_keys (validator self) →
  (∃ r, value (_process_side self image_base64 side fields) = Ok r
     ∧ dom r = list_to_set fields
     ∧ ∀ f, f ∈ fields → is_Some (r !! f))
  ∧ (∃ r, value (process_front self image_base64) = Ok r
       ∧ dom r = list_to_set FRONT_FIELDS)
  ∧ (∃ r, value (process_back self image_base64) = Ok r
       ∧ dom r = list_to_set BACK_FIELDS).
Proof.
  intros Hfin Hkeys.
  split; [|split; by apply process_side_keys].
  destruct (process_side_keys self image_base64 side fields Hfin Hkeys) as (r & Hr & Hdom).
  exists r. repeat (split; [done|]).
  intros f Hf. apply elem_of_dom. rewrite Hdom. set_solver.
Qed.

(** A field whose text is empty after the loop is empty in the result,
    when validation leaves empty values alone. *)
Lemma side_field_empty self image_base64 side fields field :
  layout_finite self →
  keeps_empty (validator self) →
  field ∈ fields →
  (∀ image, decode_base64 (normalizer self) image_base64 = Some image →
     value (process_field self (corrected_image self image)
              (zones (load_zones (zone_reader self) side)) field) = Ok []) →
  ∃ r, value (_process_side self image_base64 side fields) = Ok r
    ∧ r !! field = Some [].
Proof.
  intros Hfin Hempty Hin Hfield.
  destruct (process_side_returns self image_base64 side fields Hfin)
    as [[Hdec Hv]|(image & out & Hdec & _ & Hv & _ & Hnew)].
  - exists (empty_results fields). split; [done|].
    by apply empty_results_spec.
  - exists (validate_all (validator self) out). split; [done|].
    apply Hempty, Hnew; [done|]. by apply Hfield.
Qed.

(** C5. A field of the field list that the loaded layout does not define:
    its loop step returns the empty string without raising and without
    calling anything, the loop goes on with the remaining fields, and, with
    a finite layout and a validator that leaves empty values alone, the
    value of the field in the result of [_process_side] is the empty
    string. *)
Theorem absent_field_empty self (image_base64 side : string)
    (fields : list string) (field : string) :
  layout_finite self →
  keeps_empty (validator self) →
  field ∈ fields →
  zones (load_zones (zone_reader self) side) !! field = None →
  (∀ corrected,
     process_field self corrected (zones (load_zones (zone_reader self) side)) field
       = (Ok [], []))
  ∧ (∀ corrected rest results,
       extract_fields self corrected (zones (load_zones (zone_reader self) side))
         (field :: rest) results
       = extract_fields self corrected (zones (load_zones (zone_reader self) side))
           rest (<[field := []]> results))
  ∧ ∃ r, value (_process_side self image_base64 side fields) = Ok r
      ∧ r !! field = Some [].
Proof.
  intros Hfin Hempty Hin Hz. split; [|split].
  - intros corrected. by apply process_field_absent.
  - intros corrected rest results. simpl.
    rewrite (process_field_absent _ _ _ _ Hz). by rewrite bind_silent.
  - apply side_field_empty; try done.
    intros image _. by rewrite (process_field_absent _ _ _ _ Hz).
Qed.

(** C6. A field whose crop has size 0: its loop step returns the empty
    string without raising, and its trace is the crop call alone, so
    neither the recognition service nor PIL nor the engine is reached.
    With a finite layout and a validator that leaves empty values alone,
    the value of the field in the result of [_process_side] is the empty
    string. *)
Theorem flat_crop_empty self (image_base64 side : string)
    (fields : list string) (field : string) (zone : Zone) (x y w h : Z) :
  layout_finite self →
  keeps_empty (validator self) →
  field ∈ fields →
  zones (load_zones (zone_reader self) side) !! field = Some zone →
  zone_rect (target_width self) (target_height self) zone = Ok (x, y, w, h) →
  (∀ image, decode_base64 (normalizer self) image_base64 = Some image →
     size_of (crop_zone (detector self) (corrected_image self image) x y w h) = 0%nat) →
  (∀ corrected,
     size_of (crop_zone (detector self) corrected x y w h) = 0%nat →
     process_field self corrected (zones (load_zones (zone_reader self) side)) field
       = (Ok [], [EvCrop corrected x y w h])
     ∧ filter (λ ev, is_recognition ev = true)
         (trace (process_field self corrected
                   (zones (load_zones (zone_reader self) side)) field)) = [])
  ∧ ∃ r, value (_process_side self image_base64 side fields) = Ok r
      ∧ r !! field = Some [].
Proof.
  intros Hfin Hempty Hin Hz Hr Hflat. split.
  - intros corrected Hs.
    by rewrite (process_field_flat _ _ _ _ _ _ _ _ _ Hz Hr Hs).
  - apply side_field_empty; try done.
    intros image Hdec.
    by rewrite (process_field_flat _ _ _ _ _ _ _ _ _ Hz Hr (Hflat image Hdec)).
Qed.

End Side.

Lemma side_result_keys_witness :
  ∃ r, value (@_process_side _ Demo.ascii_unicode Demo.online "x" "front" FRONT_FIELDS) = Ok r
    ∧ dom r = list_to_set FRONT_FIELDS
    ∧ ∀ f, f ∈ FRONT_FIELDS → is_Some (r !! f).
Proof.
  apply (proj1 (@side_result_keys _ Demo.ascii_unicode Demo.online "x" "front" FRONT_FIELDS
                  (demo_layout_finite _ _ _) demo_keeps_keys)).
Defined.

Lemma absent_field_empty_witness :
  ∃ r, value (@_process_side _ Demo.ascii_unicode Demo.online "x" "front" FRONT_FIELDS) = Ok r
    ∧ r !! "f_obywatelstwo"%string = Some [].
Proof.
  apply (@absent_field_empty _ Demo.ascii_unicode Demo.online "x" "front"
           FRONT_FIELDS "f_obywatelstwo").
  - apply demo_layout_finite.
  - apply demo_keeps_empty.
  - vm_compute. set_solver.
  - reflexivity.
Defined.

Lemma flat_crop_empty_witness :
  ∃ r, value (@_process_side _ Demo.ascii_unicode Demo.online "x" "front" FRONT_FIELDS) = Ok r
    ∧ r !! "f_imiona"%string = Some [].
Proof.
  apply (@flat_crop_empty _ Demo.ascii_unicode Demo.online "x" "front"
           FRONT_FIELDS "f_imiona" Demo.flat_zone 500 315 0 63).
  - apply demo_layout_finite.
  - apply demo_keeps_empty.
  - vm_compute. set_solver.
  - reflexivity.
  - vm_compute. reflexivity.
  - intros image _. reflexivity.
Defined.

(** ** Both sides *)

Lemma count_truthy_nonempty (d : gmap string pystr) :
  count_truthy d = nonempty_values d.
Proof.
  unfold count_truthy, nonempty_values. rewrite map_fold_foldr.
  induction (map_to_list d) as [|[k v] l IH]; [done|].
  simpl. rewrite IH, filter_cons.
  destruct v as [|c v]; case_decide; simpl in *; try done; lia.
Qed.

Lemma nonempty_values_bound (d : gmap string pystr) :
  0 ≤ nonempty_values d ≤ Z.of_nat (size d).
Proof.
  unfold nonempty_values. rewrite <-length_map_to_list.
  pose proof (length_filter (λ kv : string * pystr, kv.2 ≠ []) (map_to_list d)). lia.
Qed.

Lemma combine_total (front_results back_results : gmap string pystr) :
  dom front_results = list_to_set FRONT_FIELDS →
  dom back_results = list_to_set BACK_FIELDS →
  total_fields (combine front_results back_results) = 17.
Proof.
  intros Hf Hb. unfold combine, update. simpl.
  rewrite <-(size_dom (D := gset string)), !dom_union_L, dom_empty_L, Hf, Hb.
  by vm_compute.
Qed.

Section Both.
Context {IM : Imaging} {UD : UnicodeData}.
Implicit Types (self : IDCardOCRProcessor).

Lemma process_both_value self front_base64 back_base64 front_results back_results :
  value (process_front self front_base64) = Ok front_results →
  value (process_back self back_base64) = Ok back_results →
  value (process_both self front_base64 back_base64)
    = Ok (combine front_results back_results).
Proof.
  intros Hf Hb. unfold process_both.
  rewrite (value_bind_Ok _ _ _ Hf), (value_bind_Ok _ _ _ Hb). done.
Qed.

Lemma process_both_inv self front_base64 back_base64 r :
  value (process_both self front_base64 back_base64) = Ok r →
  ∃ front_results back_results, r = combine front_results back_results.
Proof.
  unfold process_both.
  destruct (process_front self front_base64) as [[f|e] t] eqn:Hf; [|done].
  rewrite (value_bind_Ok _ _ f) by done.
  destruct (process_back self back_base64) as [[b|e] t'] eqn:Hb; [|done].
  rewrite (value_bind_Ok _ _ b) by done.
  intros [= <-]. eauto.
Qed.

(** C3. With a finite zone layout and a validator that keeps the key set,
    [process_both] returns for every pair of inputs, and in its result
    [total_fields] is [|FRONT_FIELDS| + |BACK_FIELDS| = 8 + 9 = 17],
    [extracted_fields] is the number of non-empty values of [data] (and so
    lies between 0 and 17), and [extraction_rate] is
    [extracted_fields / total_fields] when [total_fields > 0] and [0]
    otherwise; here it is always the quotient by 17. *)
Theorem combined_counts self (front_base64 back_base64 : string) :
  layout_finite self →
  keeps_keys (validator self) →
  ∃ r, value (process_both self front_base64 back_base64) = Ok r
    ∧ total_fields r = Z.of_nat (length FRONT_FIELDS + length BACK_FIELDS)
    ∧ total_fields r = 17
    ∧ extracted_fields r = nonempty_values (data r)
    ∧ 0 ≤ extracted_fields r ≤ total_fields r
    ∧ extraction_rate r
      = (if 0 <? total_fields r
         then PyFloat (truediv (extracted_fields r) (total_fields r))
         else PyInt 0)
    ∧ extraction_rate r = PyFloat (truediv (extracted_fields r) 17).
Proof.
  intros Hfin Hkeys.
  destruct (process_side_keys self front_base64 "front" FRONT_FIELDS Hfin Hkeys)
    as (f & Hf & Hdf).
  destruct (process_side_keys self back_base64 "back" BACK_FIELDS Hfin Hkeys)
    as (b & Hb & Hdb).
  exists (combine f b). split; [by apply process_both_value|].
  pose proof (combine_total f b Hdf Hdb) as Htotal.
  split; [by rewrite Htotal|]. split; [done|].
  split; [apply count_truthy_nonempty|].
  split.
  - change (extracted_fields (combine f b)) with (count_truthy (data (combine f b))).
    rewrite count_truthy_nonempty.
    change (total_fields (combine f b)) with (Z.of_nat (size (data (combine f b)))).
    apply nonempty_values_bound.
  - split; [done|].
    change (extraction_rate (combine f b))
      with (if 0 <? total_fields (combine f b)
            then PyFloat (truediv (extracted_fields (combine f b))
                                  (total_fields (combine f b)))
            else PyInt 0).
    by rewrite Htotal.
Qed.

(** C7. Whatever [process_both] returns has [success] set to [True], and
    with a finite zone layout it does return, for every pair of inputs;
    [success] does not depend on the two side results, so it is [True]
    also when no field was extracted. *)
Theorem success_always self (front_base64 back_base64 : string) :
  (∀ front_results back_results, success (combine front_results back_results) = true)
  ∧ (∀ r, value (process_both self front_base64 back_base64) = Ok r → success r = true)
  ∧ (layout_finite self →
     ∃ r, value (process_both self front_base64 back_base64) = Ok r
       ∧ success r = true).
Proof.
  split; [done|]. split.
  - intros r Hr. by destruct (process_both_inv _ _ _ _ Hr) as (f & b & ->).
  - intros Hfin.
    assert (∀ image side fields,
              ∃ r, value (_process_side self image side fields) = Ok r) as Hside.
    { intros image side fields.
      destruct (process_side_returns self image side fields Hfin)
        as [[_ Hv]|(img & out & _ & _ & Hv & _)]; eauto. }
    destruct (Hside front_base64 "front"%string FRONT_FIELDS) as [f Hf].
    destruct (Hside back_base64 "back"%string BACK_FIELDS) as [b Hb].
    exists (combine f b). split; [by apply process_both_value|done].
Qed.

End Both.

(** ** Two calls in a row *)

Section Object.
Context {IM : Imaging} {UD : UnicodeData}.

Lemma keeps_store_ret {A} (a : A) : keeps_store (mret a : OM A).
Proof. by intros st. Qed.

Lemma keeps_store_read {A} (get : Store → A) : keeps_store (read get).
Proof. by intros st. Qed.

Lemma keeps_store_call {A} (m : M A) : keeps_store (call m).
Proof. by intros st. Qed.

Lemma keeps_store_bind {A B} (m : OM A) (f : A → OM B) :
  keeps_store m → (∀ a, keeps_store (f a)) → keeps_store (m ≫= f).
Proof.
  intros Hm Hf st. unfold mbind, OM_bind, om_bind.
  specialize (Hm st). destruct (m st) as [[[a|e] t] st']; simpl in *; subst st'; [|done].
  specialize (Hf a st). by destruct (f a st) as [[r t'] st''].
Qed.

Lemma keeps_store_try {A} (body : OM A) (handler : PyExc → OM A) :
  keeps_store body → (∀ e, keeps_store (handler e)) → keeps_store (om_try body handler).
Proof.
  intros Hb Hh st. unfold om_try.
  specialize (Hb st). destruct (body st) as [[[a|e] t] st']; simpl in *; subst st'; [done|].
  specialize (Hh e st). by destruct (handler e st) as [[r t'] st''].
Qed.

Ltac keeps :=
  repeat lazymatch goal with
  | |- keeps_store (mret _) => apply keeps_store_ret
  | |- keeps_store (read _) => apply keeps_store_read
  | |- keeps_store (call _) => apply keeps_store_call
  | |- keeps_store (_ ≫= _) => apply keeps_store_bind; [|intros ?]
  | |- keeps_store (om_try _ _) => apply keeps_store_try; [|intros ?]
  | |- keeps_store (if ?b then _ else _) => destruct b
  | |- keeps_store (match ?x with _ => _ end) => destruct x
  end.

Lemma extract_text_from_roi_keeps (image_array : ndarray) :
  keeps_store (Obj.extract_text_from_roi image_array).
Proof. unfold Obj.extract_text_from_roi. keeps. Qed.

Lemma process_field_keeps corrected (zs : gmap string Zone) field :
  keeps_store (Obj.process_field corrected zs field).
Proof. unfold Obj.process_field. keeps. apply extract_text_from_roi_keeps. Qed.

Lemma extract_fields_keeps corrected (zs : gmap string Zone) fields
    (results : gmap string pystr) :
  keeps_store (Obj.extract_fields corrected zs fields results).
Proof.
  revert results. induction fields as [|f fields IH]; intros results; simpl; keeps.
  - apply process_field_keeps.
  - apply IH.
Qed.

Lemma process_side_keeps image_base64 side fields :
  keeps_store (Obj._process_side image_base64 side fields).
Proof. unfold Obj._process_side. keeps. apply extract_fields_keeps. Qed.

Lemma process_both_keeps front_base64 back_base64 :
  keeps_store (Obj.process_both front_base64 back_base64).
Proof.
  unfold Obj.process_both, Obj.process_front, Obj.process_back. keeps;
    apply process_side_keeps.
Qed.

(** *** The object model and the functions above *)

Lemma at_ret {A} st (a : A) : at_store st (mret a) (mret a).
Proof. done. Qed.

Lemma at_call {A} st (m : M A) : at_store st (call m) m.
Proof. done. Qed.

Lemma at_read_bind {A B} st (get : Store → A) (f : A → OM B) p :
  at_store st (f (get st)) p → at_store st (read get ≫= f) p.
Proof.
  unfold at_store, mbind, OM_bind, om_bind, read. simpl. intros ->.
  by destruct p.
Qed.

Lemma at_bind {A B} st (m : OM A) (f : A → OM B) (p : M A) (q : A → M B) :
  at_store st m p → (∀ a, at_store st (f a) (q a)) → at_store st (m ≫= f) (p ≫= q).
Proof.
  unfold at_store. intros Hm Hf.
  unfold mbind at 1. unfold OM_bind, om_bind. rewrite Hm.
  destruct p as [[a|e] t]; [|done]. rewrite Hf.
  unfold mbind, M_bind, bind. by destruct (q a).
Qed.

Lemma at_try {A} st (body : OM A) (handler : PyExc → OM A) p q :
  at_store st body p → (∀ e, at_store st (handler e) (q e)) →
  at_store st (om_try body handler) (try_except p q).
Proof.
  unfold at_store, om_try, try_except. intros -> Hh.
  destruct p as [[a|e] t]; [done|]. rewrite Hh. by destruct (q e).
Qed.

Ltac refines :=
  repeat lazymatch goal with
  | |- at_store _ (mret _) _ => apply at_ret
  | |- at_store _ (call _) _ => apply at_call
  | |- at_store _ (read _ ≫= _) _ => apply at_read_bind
  | |- at_store _ (_ ≫= _) _ => apply at_bind; [|intros ?]
  | |- at_store _ (om_try _ _) _ => apply at_try; [|intros ?]
  end.

Lemma extract_text_from_roi_at st (image_array : ndarray) :
  glob_TESSERACT_AVAILABLE st = TESSERACT_AVAILABLE →
  at_store st (Obj.extract_text_from_roi image_array)
    (extract_text_from_roi (ocr_service (self_obj st)) image_array).
Proof.
  intros Hav. unfold Obj.extract_text_from_roi, extract_text_from_roi.
  apply at_read_bind. rewrite Hav. destruct (negb TESSERACT_AVAILABLE); refines.
Qed.

Lemma process_field_at st corrected (zs : gmap string Zone) field :
  glob_TESSERACT_AVAILABLE st = TESSERACT_AVAILABLE →
  at_store st (Obj.process_field corrected zs field)
    (process_field (self_obj st) corrected zs field).
Proof.
  intros Hav. unfold Obj.process_field, process_field.
  destruct (zs !! field) as [zone|]; refines.
  destruct a as [[[x y] w] h]. refines.
  destruct (size_of _ =? 0)%nat; refines. by apply extract_text_from_roi_at.
Qed.

Lemma extract_fields_at st corrected (zs : gmap string Zone) fields
    (results : gmap string pystr) :
  glob_TESSERACT_AVAILABLE st = TESSERACT_AVAILABLE →
  at_store st (Obj.extract_fields corrected zs fields results)
    (extract_fields (self_obj st) corrected zs fields results).
Proof.
  intros Hav. revert results. induction fields as [|f fields IH]; intros results; simpl.
  - apply at_ret.
  - apply at_bind; [by apply process_field_at|]. intros text. apply IH.
Qed.

Lemma process_side_at st image_base64 side fields :
  glob_TESSERACT_AVAILABLE st = TESSERACT_AVAILABLE →
  at_store st (Obj._process_side image_base64 side fields)
    (_process_side (self_obj st) image_base64 side fields).
Proof.
  intros Hav. unfold Obj._process_side, _process_side. refines.
  destruct (decode_base64 _ _) as [image|]; refines.
  destruct (size_of image =? 0)%nat; refines.
  destruct (process _ image) as [corrected detected]. refines.
  - destruct (negb detected); refines.
  - by apply extract_fields_at.
Qed.

(** On the store the imports and the constructor leave, the object model
    of [process_both] does what [process_both] above does. *)
Lemma process_both_at (self : IDCardOCRProcessor) tesseract_cmd front_base64 back_base64 :
  at_store (fresh_store self tesseract_cmd)
    (Obj.process_both front_base64 back_base64)
    (process_both self front_base64 back_base64).
Proof.
  unfold Obj.process_both, process_both, Obj.process_front, Obj.process_back,
    process_front, process_back.
  refines; by apply process_side_at.
Qed.

End Object.

(** The assignment of line 36 is seen in the store: unless the path was
    there already, the store after it is another one. *)
Lemma set_tesseract_cmd_seen {IM : Imaging} (tesseract_path : string) (st : Store) :
  glob_tesseract_cmd st ≠ Some tesseract_path →
  (Obj.set_tesseract_cmd tesseract_path st).2 ≠ st.
Proof. intros Hne Heq. apply Hne. by rewrite <-Heq. Qed.

(** C9. Two calls of [process_both] in a row with the same two inputs, the
    collaborators being functions, from any store of attributes, class
    attributes and globals: the first call leaves the store as it found
    it, so does the second, and both return the same [CombinedResult] (or
    raise the same exception) after the same calls to the collaborators.
    On the store the imports and the constructor leave, each of the two
    calls does what [process_both] above does. *)
Theorem process_both_deterministic {IM : Imaging} {UD : UnicodeData}
    (front_base64 back_base64 : string) (st : Store) :
  let first := Obj.process_both front_base64 back_base64 st in
  let second := Obj.process_both front_base64 back_base64 first.2 in
  first.2 = st
  ∧ second.2 = st
  ∧ value first.1 = value second.1
  ∧ trace first.1 = trace second.1
  ∧ ∀ self tesseract_cmd,
      st = fresh_store self tesseract_cmd →
      first.1 = process_both self front_base64 back_base64
      ∧ second.1 = process_both self front_base64 back_base64.
Proof.
  intros first second.
  pose proof (process_both_keeps front_base64 back_base64 st) as Hfirst.
  fold first in Hfirst.
  assert (second = first) as Hsame by (unfold second; by rewrite Hfirst).
  rewrite Hsame. repeat (split; [done|]).
  intros self tesseract_cmd ->.
  pose proof (process_both_at self tesseract_cmd front_base64 back_base64) as Hat.
  unfold at_store in Hat. fold first in Hat. by rewrite Hat.
Qed.

Lemma process_both_deterministic_witness :
  let first := @Obj.process_both _ Demo.ascii_unicode "x" ""
                 (fresh_store Demo.online None) in
  let second := @Obj.process_both _ Demo.ascii_unicode "x" "" first.2 in
  first.1 = @process_both _ Demo.ascii_unicode Demo.online "x" ""
  ∧ second.1 = @process_both _ Demo.ascii_unicode Demo.online "x" "".
Proof.
  exact (proj2 (proj2 (proj2 (proj2
    (@process_both_deterministic _ Demo.ascii_unicode "x" "" (fresh_store Demo.online None)))))
    Demo.online None eq_refl).
Defined.

Lemma combined_counts_witness :
  ∃ r, value (@process_both _ Demo.ascii_unicode Demo.online "x" "") = Ok r
    ∧ total_fields r = 17
    ∧ extracted_fields r = 1
    ∧ extraction_rate r = PyFloat (truediv 1 17).
Proof.
  destruct (@combined_counts _ Demo.ascii_unicode Demo.online "x" ""
              (demo_layout_finite _ _ _) demo_keeps_keys)
    as (r & Hr & _ & Htotal & _ & _ & _ & Hrate).
  exists r. split; [exact Hr|]. split; [exact Htotal|].
  assert (extracted_fields r = 1) as Hone.
  { vm_compute in Hr. injection Hr as <-. reflexivity. }
  split; [exact Hone|]. rewrite Hrate, Hone. reflexivity.
Defined.

Lemma success_always_witness :
  ∃ r, value (@process_both _ Demo.ascii_unicode Demo.online "" "") = Ok r
    ∧ success r = true.
Proof.
  apply (proj2 (proj2 (@success_always _ Demo.ascii_unicode Demo.online "" ""))).
  apply demo_layout_finite.
Defined.

(** ** Failure of the recognition engine *)

Section Failure.
Context {IM : Imaging} {UD : UnicodeData}.
Implicit Types (self : IDCardOCRProcessor).

Lemma process_field_failure self corrected (zs : gmap string Zone) field :
  (∀ zone, zs !! field = Some zone →
     zone_finite (target_width self) (target_height self) zone = true) →
  clean_text (validator self) [] = [] →
  (TESSERACT_AVAILABLE = false
   ∨ ∀ zone x y w h,
       zs !! field = Some zone →
       zone_rect (target_width self) (target_height self) zone = Ok (x, y, w, h) →
       recognition_raises (crop_zone (detector self) corrected x y w h)) →
  value (process_field self corrected zs field) = Ok [].
Proof.
  intros Hfin Hclean Hfail. destruct (zs !! field) as [zone|] eqn:Hz.
  2:{ by rewrite (process_field_absent _ _ _ _ Hz). }
  destruct (zone_finite_rect _ _ _ (Hfin zone eq_refl)) as (x & y & w & h & Hr & _).
  destruct (decide (size_of (crop_zone (detector self) corrected x y w h) = 0%nat)) as [Hs|Hs].
  { by rewrite (process_field_flat _ _ _ _ _ _ _ _ _ Hz Hr Hs). }
  destruct (process_field_recognized _ _ _ _ _ _ _ _ _ Hz Hr Hs) as (text & Htext & ->).
  destruct (extract_text_from_roi_failure (ocr_service self)
              (crop_zone (detector self) corrected x y w h)) as [Hnil _].
  { destruct Hfail as [Hoff|Hraise]; [by left|right]. by eapply Hraise. }
  rewrite Hnil in Htext. injection Htext as <-. unfold value. simpl. by rewrite Hclean.
Qed.


End Failure.


(** ** What reaches the validator *)

(** C10. Every string [extract_text_from_roi] returns is empty, or is a
    fixed point of [upper], starts and ends with a non-whitespace character,
    and has no whitespace other than single U+0020 characters between
    words.  The call never raises.  In [_process_side] every text handed to
    the validator's [clean_text] is such a string: the whitespace collapse
    and the upper-casing are done by the service, before the validator
    sees the text. *)
Theorem recognized_text_normalized {IM : Imaging} {UD : UnicodeData}
    (UL : UnicodeLaws UD) :
  (∀ (service : OCRService) (roi : ndarray),
     ∃ text, value (extract_text_from_roi service roi) = Ok text ∧ normalized text)
  ∧ (∀ (self : IDCardOCRProcessor) (image_base64 side : string)
       (fields : list string) (text : pystr),
       text ∈ cleaned_inputs (trace (_process_side self image_base64 side fields)) →
       normalized text).
Proof.
  split; [intros; by apply extract_text_from_roi_normalized|].
  intros self image_base64 side fields text Hin.
  destruct (decode_base64 (normalizer self) image_base64) as [image|] eqn:Hdec.
  2:{ rewrite (process_side_undecoded self image_base64 side fields) in Hin by (by left).
      by apply elem_of_nil in Hin. }
  destruct (decide (size_of image = 0%nat)) as [Hsz|Hsz].
  { rewrite (process_side_undecoded self image_base64 side fields) in Hin
      by (right; by exists image).
    by apply elem_of_nil in Hin. }
  apply list_elem_of_omap in Hin as (ev & Hev & Hclean).
  destruct (process_side_decoded self image_base64 side fields image Hdec Hsz)
    as (_ & _ & Htrace).
  destruct (Htrace ev Hev) as [Hloop|Hnone].
  2:{ unfold cleaned_inputs in Hnone. simpl in Hnone. by rewrite Hclean in Hnone. }
  apply extract_fields_trace in Hloop as (f & _ & Hf).
  destruct (process_field_cleans self (corrected_image self image)
              (zones (load_zones (zone_reader self) side)) f text) as [roi Hroi].
  { apply list_elem_of_omap. by exists ev. }
  destruct (extract_text_from_roi_normalized (ocr_service self) roi)
    as (text' & Htext' & Hnorm).
  congruence.
Qed.

Lemma recognized_text_normalized_witness :
  ∃ text,
    value (extract_text_from_roi (IM := Demo.imaging) (UD := Demo.ascii_unicode)
             (ocr_service Demo.online) [31; 200; 3]%nat) = Ok text
    ∧ normalized (UD := Demo.ascii_unicode) text.
Proof.
  apply (proj1 (@recognized_text_normalized Demo.imaging Demo.ascii_unicode
                  ascii_unicode_laws)).
Defined.

(** * Further properties *)

(** ** More on [strip] and [split] *)

Lemma lstrip_decompose (s : pystr) :
  ∃ pre, s = pre ++ lstrip s ∧ Forall (λ c, isspace c = true) pre.
Proof.
  induction s as [|c s (pre & Heq & Hpre)]; simpl.
  - by exists [].
  - destruct (isspace c) eqn:Hc.
    + exists (c :: pre). split; [simpl; congruence|by constructor].
    + by exists [].
Qed.

Lemma lstrip_no_leading (s : pystr) : no_leading_space (lstrip s).
Proof.
  induction s as [|c s IH]; simpl; [by intros ?|].
  destruct (isspace c) eqn:Hc; [done|]. intros d [= <-]. done.
Qed.

Lemma lstrip_id (s : pystr) : no_leading_space s → lstrip s = s.
Proof.
  destruct s as [|c s]; [done|]. intros Hs. simpl.
  by rewrite (Hs c eq_refl).
Qed.

Lemma rev_reverse (s : pystr) : rev s = reverse s.
Proof. unfold reverse. apply rev_alt. Qed.

Lemma rstrip_decompose (s : pystr) :
  ∃ suf, s = rstrip s ++ suf ∧ Forall (λ c, isspace c = true) suf.
Proof.
  destruct (lstrip_decompose (rev s)) as (pre & Heq & Hpre).
  exists (rev pre). split; [|by apply List.Forall_rev].
  unfold rstrip. rewrite <-rev_app_distr, <-Heq. by rewrite rev_involutive.
Qed.

Lemma rstrip_no_trailing (s : pystr) : no_trailing_space (rstrip s).
Proof.
  unfold rstrip. intros c. rewrite rev_reverse, last_reverse. apply lstrip_no_leading.
Qed.

Lemma rstrip_id (s : pystr) : no_trailing_space s → rstrip s = s.
Proof.
  intros Hs. unfold rstrip. rewrite lstrip_id; [apply rev_involutive|].
  intros c. rewrite rev_reverse, head_reverse. apply Hs.
Qed.

Lemma rstrip_no_leading (s : pystr) : no_leading_space s → no_leading_space (rstrip s).
Proof.
  intros Hs c Hc. destruct (rstrip_decompose s) as (suf & Heq & _).
  apply Hs. rewrite Heq. destruct (rstrip s); [done|]. done.
Qed.

(** [strip] leaves no whitespace at either end, and changes nothing when
    there is none. *)
Lemma strip_ends (s : pystr) :
  no_leading_space (strip s) ∧ no_trailing_space (strip s).
Proof.
  split; [apply rstrip_no_leading, lstrip_no_leading|apply rstrip_no_trailing].
Qed.

Lemma strip_id (s : pystr) :
  no_leading_space s → no_trailing_space s → strip s = s.
Proof. intros Hl Ht. unfold strip. by rewrite (lstrip_id _ Hl), rstrip_id. Qed.

Lemma split_from_spaces (cur spaces : pystr) :
  Forall (λ c, isspace c = true) spaces →
  split_from cur spaces = split_from cur [].
Proof.
  intros Hsp. revert cur. induction Hsp as [|c spaces Hc Hsp IH]; intros cur; [done|].
  simpl. rewrite Hc. destruct cur as [|d cur]; [apply IH|].
  by rewrite (IH []).
Qed.

Lemma split_from_trailing (cur s spaces : pystr) :
  Forall (λ c, isspace c = true) spaces →
  split_from cur (s ++ spaces) = split_from cur s.
Proof.
  intros Hsp. revert cur. induction s as [|c s IH]; intros cur; simpl.
  - by apply split_from_spaces.
  - destruct (isspace c); [|apply IH]. destruct cur; by rewrite IH.
Qed.

Lemma split_leading (spaces s : pystr) :
  Forall (λ c, isspace c = true) spaces → split (spaces ++ s) = split s.
Proof.
  unfold split. induction 1 as [|c spaces Hc Hsp IH]; [done|].
  simpl. by rewrite Hc.
Qed.

Lemma split_lstrip (s : pystr) : split (lstrip s) = split s.
Proof.
  destruct (lstrip_decompose s) as (pre & Heq & Hpre).
  transitivity (split (pre ++ lstrip s)); [by rewrite split_leading|by rewrite <-Heq].
Qed.

Lemma split_rstrip (s : pystr) : split (rstrip s) = split s.
Proof.
  destruct (rstrip_decompose s) as (suf & Heq & Hsuf).
  transitivity (split (rstrip s ++ suf)); [|by rewrite <-Heq].
  unfold split. by rewrite split_from_trailing.
Qed.

(** [split] does not see what [strip] removes. *)
Lemma split_strip (s : pystr) : split (strip s) = split s.
Proof. unfold strip. by rewrite split_rstrip, split_lstrip. Qed.

Lemma split_from_word (cur w rest : pystr) :
  Forall (λ c, isspace c = false) w →
  split_from cur (w ++ rest) = split_from (rev w ++ cur) rest.
Proof.
  intros Hw. revert cur. induction Hw as [|c w Hc Hw IH]; intros cur; [done|].
  simpl. rewrite Hc, IH. by rewrite <-app_assoc.
Qed.

(** Splitting what was joined by single spaces gives the words back. *)
Lemma split_join_words (ws : list pystr) :
  Forall word ws → split (join [SPACE] ws) = ws.
Proof.
  unfold split. induction 1 as [|w ws [Hne Hw] Hws IH]; [done|].
  destruct ws as [|w' ws].
  - simpl. rewrite <-(app_nil_r w) at 1. rewrite (split_from_word _ _ _ Hw).
    simpl. rewrite app_nil_r. destruct (rev w) eqn:Hrev.
    + apply (f_equal (@rev N)) in Hrev. rewrite rev_involutive in Hrev. done.
    + by rewrite <-Hrev, rev_involutive.
  - change (join [SPACE] (w :: w' :: ws))
      with (w ++ SPACE :: join [SPACE] (w' :: ws)).
    rewrite (split_from_word _ _ _ Hw), app_nil_r. simpl.
    destruct (rev w) eqn:Hrev.
    + apply (f_equal (@rev N)) in Hrev. rewrite rev_involutive in Hrev. done.
    + rewrite <-Hrev, rev_involutive. f_equal. apply IH.
Qed.

Lemma join_words_strip (ws : list pystr) :
  Forall word ws → strip (join [SPACE] ws) = join [SPACE] ws.
Proof.
  intros Hws. destruct (join_words_spacing ws Hws) as (Hl & Ht & _).
  by apply strip_id.
Qed.

Section Recleaning.
Context {UD : UnicodeData} {UL : UnicodeLaws UD}.

Lemma upper_words (ws : list pystr) :
  Forall word ws → Forall word (map upper ws).
Proof. intros Hws. apply Forall_map. eapply Forall_impl; [exact Hws|]. intros w. apply upper_word. Qed.

(** The cleaning of lines 139-143 leaves an already cleaned text as it is. *)
Lemma cleaning_idempotent (text : pystr) :
  let clean t := upper (join [SPACE] (split (strip t))) in
  clean (clean text) = clean text.
Proof.
  intros clean. unfold clean at 2 3. rewrite upper_join.
  pose proof (upper_words _ (split_words (strip text))) as Hws.
  unfold clean. rewrite (join_words_strip _ Hws), (split_join_words _ Hws).
  rewrite <-upper_join. apply upper_upper.
Qed.

End Recleaning.

(** ** The recognition service, once more *)

(** X1. The cleaning done by [extract_text_from_roi] is idempotent: cleaning
    a text the service returned, by the same strip, split, join and upper,
    gives that text back. *)
Theorem roi_text_is_clean {IM : Imaging} {UD : UnicodeData} (UL : UnicodeLaws UD)
    (self : OCRService) (roi : ndarray) (text : pystr) :
  value (extract_text_from_roi self roi) = Ok text →
  upper (join [SPACE] (split (strip text))) = text.
Proof.
  destruct (extract_text_from_roi_cases self roi)
    as [[_ ->]|[(e & _ & _ & ->)|[(pil & engine & e & _ & _ & _ & ->)
       |(pil & engine & raw & _ & _ & _ & ->)]]]; intros [= <-]; try done.
  apply cleaning_idempotent.
Qed.

Lemma roi_text_is_clean_witness :
  upper (UD := Demo.ascii_unicode)
    (join [SPACE] (split (strip (Demo.codes "JAN KOWALSKI"))))
  = Demo.codes "JAN KOWALSKI".
Proof.
  apply (@roi_text_is_clean Demo.imaging Demo.ascii_unicode ascii_unicode_laws
           (ocr_service Demo.online) [31; 200; 3]%nat).
  reflexivity.
Defined.

(** X2. When the engine returns [raw] for a crop, the service returns [raw]
    split on whitespace, joined by single spaces and upper-cased: the
    [strip] of line 139 never changes the result. *)
Theorem roi_strip_redundant {IM : Imaging} {UD : UnicodeData}
    (self : OCRService) (roi : ndarray) pil engine (raw : pystr) :
  pytesseract = Some engine →
  Image_fromarray (rgb_of roi) = Ok pil →
  engine pil "pol+eng"%string "--psm 7"%string = Ok raw →
  value (extract_text_from_roi self roi) = Ok (upper (join [SPACE] (split raw))).
Proof.
  intros Hpy Hpil Hrun.
  destruct (extract_text_from_roi_cases self roi)
    as [[Hoff _]|[(e & _ & He & _)|[(pil' & engine' & e & Hpy' & Hpil' & Hrun' & _)
       |(pil' & engine' & raw' & Hpy' & Hpil' & Hrun' & ->)]]].
  - unfold TESSERACT_AVAILABLE in Hoff. by rewrite Hpy in Hoff.
  - congruence.
  - congruence.
  - assert (raw' = raw) as -> by congruence. simpl. by rewrite split_strip.
Qed.

Lemma roi_strip_redundant_witness :
  value (extract_text_from_roi (IM := Demo.imaging) (UD := Demo.ascii_unicode)
           (ocr_service Demo.online) [31; 200; 3]%nat)
  = Ok (upper (UD := Demo.ascii_unicode)
          (join [SPACE] (split (Demo.codes "  jan   kowalski ")))).
Proof.
  apply (@roi_strip_redundant Demo.imaging Demo.ascii_unicode
           (ocr_service Demo.online) [31; 200; 3]%nat [31; 200; 3]%nat Demo.engine);
    reflexivity.
Defined.

(** ** The calls one side makes *)

Section Calls.
Context {IM : Imaging} {UD : UnicodeData}.
Implicit Types (self : IDCardOCRProcessor) (corrected : ndarray).
Implicit Types (zs : gmap string Zone) (results : gmap string pystr).

Ltac run_M :=
  unfold mbind, M_bind, bind, emit, lift, try_except, mret, M_ret, ret; simpl.

(** The whole trace of a side whose image is decoded and not empty. *)
Lemma process_side_trace self image_base64 side fields image :
  decode_base64 (normalizer self) image_base64 = Some image →
  size_of image ≠ 0%nat →
  let loop := extract_fields self (corrected_image self image)
                (zones (load_zones (zone_reader self) side)) fields ∅ in
  trace (_process_side self image_base64 side fields)
    = EvDecode image_base64 :: EvDetect image
      :: (if (process (detector self) image).2 then [] else [EvNormalize image])
      ++ EvLoadZones side :: trace loop
      ++ match value loop with Ok out => [EvValidate out] | Raise _ => [] end.
Proof.
  intros Hdec Hsz loop. apply Nat.eqb_neq in Hsz.
  unfold _process_side. rewrite bind_emit, Hdec, Hsz, bind_emit.
  subst loop. unfold corrected_image.
  destruct (process (detector self) image) as [c detected].
  destruct detected; simpl;
    destruct (extract_fields _ _ _ _ _) as [[out|e] t]; run_M;
    unfold trace, value; simpl; by rewrite ?app_nil_r.
Qed.

(** The four ways a loop step can go, with its trace. *)
Lemma process_field_cases self corrected zs field :
  (zs !! field = None ∧ process_field self corrected zs field = (Ok [], []))
  ∨ (∃ zone e, zs !! field = Some zone
       ∧ zone_rect (target_width self) (target_height self) zone = Raise e
       ∧ process_field self corrected zs field = (Raise e, []))
  ∨ (∃ zone x y w h, zs !! field = Some zone
       ∧ zone_rect (target_width self) (target_height self) zone = Ok (x, y, w, h)
       ∧ size_of (crop_zone (detector self) corrected x y w h) = 0%nat
       ∧ process_field self corrected zs field = (Ok [], [EvCrop corrected x y w h]))
  ∨ (∃ zone x y w h text, zs !! field = Some zone
       ∧ zone_rect (target_width self) (target_height self) zone = Ok (x, y, w, h)
       ∧ size_of (crop_zone (detector self) corrected x y w h) ≠ 0%nat
       ∧ value (extract_text_from_roi (ocr_service self)
                  (crop_zone (detector self) corrected x y w h)) = Ok text
       ∧ process_field self corrected zs field
         = (Ok (clean_text (validator self) text),
            EvCrop corrected x y w h
              :: EvRecognize (crop_zone (detector self) corrected x y w h)
              :: trace (extract_text_from_roi (ocr_service self)
                          (crop_zone (detector self) corrected x y w h))
              ++ [EvClean text])).
Proof.
  destruct (zs !! field) as [zone|] eqn:Hz.
  2:{ left. split; [done|]. by apply process_field_absent. }
  right.
  destruct (zone_rect (target_width self) (target_height self) zone)
    as [[[[x y] w] h]|e] eqn:Hr.
  2:{ left. exists zone, e. repeat (split; [done|]). by eapply process_field_raises. }
  right.
  destruct (decide (size_of (crop_zone (detector self) corrected x y w h) = 0%nat)) as [Hs|Hs].
  { left. exists zone, x, y, w, h. repeat (split; [done|]). by eapply process_field_flat. }
  right. destruct (process_field_recognized _ _ _ _ _ _ _ _ _ Hz Hr Hs) as (text & Htext & Heq).
  by exists zone, x, y, w, h, text.
Qed.

(** The events of a call of the service: PIL, the engine, a print. *)
Lemma roi_trace_events (service : OCRService) (roi : ndarray) ev :
  ev ∈ trace (extract_text_from_roi service roi) →
  ev = EvFromArray (rgb_of roi)
  ∨ (∃ pil, Image_fromarray (rgb_of roi) = Ok pil
       ∧ TESSERACT_AVAILABLE = true
       ∧ ev = EvEngine pil "pol+eng" "--psm 7")
  ∨ (∃ e, ev = EvPrint e).
Proof.
  destruct (extract_text_from_roi_cases service roi)
    as [[_ ->]|[(e & _ & _ & ->)|[(pil & engine & e & Hpy & Hpil & _ & ->)
       |(pil & engine & text & Hpy & Hpil & _ & ->)]]]; unfold trace; simpl;
    rewrite ?elem_of_cons, ?elem_of_nil; intros Hin.
  - done.
  - destruct Hin as [->|[->|[]]]; eauto.
  - assert (TESSERACT_AVAILABLE = true) by (unfold TESSERACT_AVAILABLE; by rewrite Hpy).
    destruct Hin as [->|[->|[->|[]]]]; eauto 10.
  - assert (TESSERACT_AVAILABLE = true) by (unfold TESSERACT_AVAILABLE; by rewrite Hpy).
    destruct Hin as [->|[->|[]]]; eauto 10.
Qed.

(** An event of a loop step, and where it comes from. *)
Lemma process_field_event self corrected zs field ev :
  ev ∈ trace (process_field self corrected zs field) →
  ∃ zone x y w h,
    zs !! field = Some zone
    ∧ zone_rect (target_width self) (target_height self) zone = Ok (x, y, w, h)
    ∧ (ev = EvCrop corrected x y w h
       ∨ (size_of (crop_zone (detector self) corrected x y w h) ≠ 0%nat
          ∧ (ev = EvRecognize (crop_zone (detector self) corrected x y w h)
             ∨ ev ∈ trace (extract_text_from_roi (ocr_service self)
                             (crop_zone (detector self) corrected x y w h))
             ∨ ∃ text, ev = EvClean text))).
Proof.
  destruct (process_field_cases self corrected zs field)
    as [[_ ->]|[(zone & e & _ & _ & ->)|[(zone & x & y & w & h & Hz & Hr & Hs & ->)
       |(zone & x & y & w & h & text & Hz & Hr & Hs & Htext & ->)]]];
    unfold trace; simpl; intros Hin.
  - by apply elem_of_nil in Hin.
  - by apply elem_of_nil in Hin.
  - apply list_elem_of_singleton in Hin as ->. exists zone, x, y, w, h. eauto.
  - exists zone, x, y, w, h. repeat (split; [done|]).
    apply elem_of_cons in Hin as [->|Hin]; [by left|right]. split; [done|].
    apply elem_of_cons in Hin as [->|Hin]; [by left|right].
    apply elem_of_app in Hin as [Hin|Hin]; [by left|right].
    apply list_elem_of_singleton in Hin as ->. eauto.
Qed.

Lemma process_field_events self corrected zs field ev :
  ev ∈ trace (process_field self corrected zs field) → is_field_event ev = true.
Proof.
  intros Hin. destruct (process_field_event _ _ _ _ _ Hin)
    as (zone & x & y & w & h & _ & _ & [->|[_ [->|[Hroi|[text ->]]]]]); try done.
  apply roi_trace_events in Hroi as [->|[(pil & _ & _ & ->)|[e ->]]]; done.
Qed.

(** An event of a decoded side is one of the fixed calls around the loop or
    an event of some listed field. *)
Lemma process_side_event self image_base64 side fields image ev :
  decode_base64 (normalizer self) image_base64 = Some image →
  size_of image ≠ 0%nat →
  ev ∈ trace (_process_side self image_base64 side fields) →
  ev = EvDecode image_base64
  ∨ ev = EvDetect image
  ∨ ((process (detector self) image).2 = false ∧ ev = EvNormalize image)
  ∨ ev = EvLoadZones side
  ∨ (∃ field, field ∈ fields
       ∧ ev ∈ trace (process_field self (corrected_image self image)
                       (zones (load_zones (zone_reader self) side)) field))
  ∨ (∃ out, value (extract_fields self (corrected_image self image)
                     (zones (load_zones (zone_reader self) side)) fields ∅) = Ok out
       ∧ ev = EvValidate out).
Proof.
  intros Hdec Hsz. rewrite (process_side_trace _ _ _ _ _ Hdec Hsz).
  intros [->|Hin]%elem_of_cons; [by left|right].
  apply elem_of_cons in Hin as [->|Hin]; [by left|right].
  apply elem_of_app in Hin as [Hin|Hin].
  { left. destruct (process (detector self) image).2; [by apply elem_of_nil in Hin|].
    by apply list_elem_of_singleton in Hin as ->. }
  right. apply elem_of_cons in Hin as [->|Hin]; [by left|right].
  apply elem_of_app in Hin as [Hin|Hin].
  - left. by apply extract_fields_trace in Hin.
  - right. destruct (value _) as [out|e] eqn:Hv; [|by apply elem_of_nil in Hin].
    apply list_elem_of_singleton in Hin as ->. by exists out.
Qed.

End Calls.

Section Crops.
Context {IM : Imaging} {UD : UnicodeData}.
Implicit Types (self : IDCardOCRProcessor).

(** X3. Every crop [_process_side] asks for is made for an input that
    decodes to a non-empty image, and is taken from the image the detector
    returned when it reported a detection and from the image
    [normalize_document] returned otherwise, at the rectangle of the zone
    of one of the listed fields. *)
Theorem crops_on_corrected_image self (image_base64 side : string)
    (fields : list string) (img : ndarray) (x y w h : Z) :
  EvCrop img x y w h ∈ trace (_process_side self image_base64 side fields) →
  ∃ image field zone,
    decode_base64 (normalizer self) image_base64 = Some image
    ∧ size_of image ≠ 0%nat
    ∧ img = corrected_image self image
    ∧ img = (if (process (detector self) image).2
             then (process (detector self) image).1
             else normalize_document (normalizer self) image)
    ∧ field ∈ fields
    ∧ zones (load_zones (zone_reader self) side) !! field = Some zone
    ∧ zone_rect (target_width self) (target_height self) zone = Ok (x, y, w, h).
Proof.
  assert (∀ image, corrected_image self image
                   = (if (process (detector self) image).2
                      then (process (detector self) image).1
                      else normalize_document (normalizer self) image)) as Hcorr.
  { intros image. unfold corrected_image.
    by destruct (process (detector self) image) as [c []]. }
  intros Hin.
  destruct (decode_base64 (normalizer self) image_base64) as [image|] eqn:Hdec.
  2:{ rewrite (process_side_undecoded self image_base64 side fields) in Hin by (by left).
      by apply list_elem_of_singleton in Hin. }
  destruct (decide (size_of image = 0%nat)) as [Hsz|Hsz].
  { rewrite (process_side_undecoded self image_base64 side fields) in Hin
      by (right; by exists image).
    by apply list_elem_of_singleton in Hin. }
  destruct (process_side_event _ _ _ _ _ _ Hdec Hsz Hin)
    as [?|[?|[[_ ?]|[?|[(field & Hf & Hev)|(out & _ & ?)]]]]]; try done.
  destruct (process_field_event _ _ _ _ _ Hev)
    as (zone & x' & y' & w' & h' & Hz & Hr & [Heq|[_ [?|[Hroi|[text ?]]]]]); try done.
  - injection Heq as -> -> -> -> ->. exists image, field, zone.
    split_and!; first [assumption | reflexivity | apply Hcorr].
  - apply roi_trace_events in Hroi as [?|[(pil & _ & _ & ?)|[e ?]]]; done.
Qed.

(** X4. The fallback normaliser is called exactly when the input decodes to
    a non-empty image and the detector reports that it found no document;
    it is called on the decoded image. *)
Theorem fallback_iff_undetected self (image_base64 side : string)
    (fields : list string) (img : ndarray) :
  EvNormalize img ∈ trace (_process_side self image_base64 side fields)
  ↔ decode_base64 (normalizer self) image_base64 = Some img
    ∧ size_of img ≠ 0%nat
    ∧ (process (detector self) img).2 = false.
Proof.
  split.
  - intros Hin.
    destruct (decode_base64 (normalizer self) image_base64) as [image|] eqn:Hdec.
    2:{ rewrite (process_side_undecoded self image_base64 side fields) in Hin by (by left).
        by apply list_elem_of_singleton in Hin. }
    destruct (decide (size_of image = 0%nat)) as [Hsz|Hsz].
    { rewrite (process_side_undecoded self image_base64 side fields) in Hin
        by (right; by exists image).
      by apply list_elem_of_singleton in Hin. }
    destruct (process_side_event _ _ _ _ _ _ Hdec Hsz Hin)
      as [?|[?|[[Hund Heq]|[?|[(field & Hf & Hev)|(out & _ & ?)]]]]]; try done.
    + by injection Heq as ->.
    + by apply process_field_events in Hev.
  - intros (Hdec & Hsz & Hund).
    rewrite (process_side_trace _ _ _ _ _ Hdec Hsz), Hund. set_solver.
Qed.

(** X5. Every engine call of [_process_side] uses the languages [pol+eng]
    and the single-line mode [--psm 7], happens only when pytesseract was
    imported, and is made on the PIL image of a non-empty crop of a listed
    field.  When pytesseract was not imported, neither PIL nor the engine
    is reached and nothing is printed. *)
Theorem engine_called_in_line_mode self (image_base64 side : string)
    (fields : list string) :
  (∀ pil lang config,
     EvEngine pil lang config ∈ trace (_process_side self image_base64 side fields) →
     lang = "pol+eng"%string ∧ config = "--psm 7"%string
     ∧ TESSERACT_AVAILABLE = true
     ∧ ∃ image field zone x y w h,
         decode_base64 (normalizer self) image_base64 = Some image
         ∧ field ∈ fields
         ∧ zones (load_zones (zone_reader self) side) !! field = Some zone
         ∧ zone_rect (target_width self) (target_height self) zone = Ok (x, y, w, h)
         ∧ size_of (crop_zone (detector self) (corrected_image self image) x y w h) ≠ 0%nat
         ∧ Image_fromarray
             (rgb_of (crop_zone (detector self) (corrected_image self image) x y w h))
           = Ok pil)
  ∧ (TESSERACT_AVAILABLE = false →
     ∀ ev, ev ∈ trace (_process_side self image_base64 side fields) →
       match ev with
       | EvFromArray _ | EvEngine _ _ _ | EvPrint _ => False
       | _ => True
       end).
Proof.
  assert (∀ ev, ev ∈ trace (_process_side self image_base64 side fields) →
            match ev with
            | EvFromArray _ | EvEngine _ _ _ | EvPrint _ =>
                ∃ image field zone x y w h,
                  decode_base64 (normalizer self) image_base64 = Some image
                  ∧ field ∈ fields
                  ∧ zones (load_zones (zone_reader self) side) !! field = Some zone
                  ∧ zone_rect (target_width self) (target_height self) zone = Ok (x, y, w, h)
                  ∧ size_of (crop_zone (detector self) (corrected_image self image) x y w h)
                    ≠ 0%nat
                  ∧ ev ∈ trace (extract_text_from_roi (ocr_service self)
                                  (crop_zone (detector self) (corrected_image self image)
                                     x y w h))
            | _ => True
            end) as Hsrc.
  { intros ev Hin.
    destruct (decode_base64 (normalizer self) image_base64) as [image|] eqn:Hdec.
    2:{ rewrite (process_side_undecoded self image_base64 side fields) in Hin by (by left).
        by apply list_elem_of_singleton in Hin as ->. }
    destruct (decide (size_of image = 0%nat)) as [Hsz|Hsz].
    { rewrite (process_side_undecoded self image_base64 side fields) in Hin
        by (right; by exists image).
      by apply list_elem_of_singleton in Hin as ->. }
    destruct (process_side_event _ _ _ _ _ _ Hdec Hsz Hin)
      as [->|[->|[[_ ->]|[->|[(field & Hf & Hev)|(out & _ & ->)]]]]]; try done.
    destruct (process_field_event _ _ _ _ _ Hev)
      as (zone & x & y & w & h & Hz & Hr & [->|[Hs [->|[Hroi|[text ->]]]]]); try done.
    destruct ev; try done; by exists image, field, zone, x, y, w, h. }
  split.
  - intros pil lang config Hin.
    destruct (Hsrc _ Hin) as (image & field & zone & x & y & w & h
                              & Hdec & Hf & Hz & Hr & Hs & Hroi).
    apply roi_trace_events in Hroi as [?|[(pil' & Hpil & Hav & Heq)|[e ?]]]; try done.
    injection Heq as -> -> ->. repeat (split; [done|]).
    by exists image, field, zone, x, y, w, h.
  - intros Hoff ev Hin. specialize (Hsrc ev Hin).
    destruct ev; try done;
      destruct Hsrc as (image & field & zone & x & y & w & h & _ & _ & _ & _ & _ & Hroi);
      destruct (extract_text_from_roi_cases (ocr_service self)
                  (crop_zone (detector self) (corrected_image self image) x y w h))
        as [[_ Heq]|[(e' & Hav & _)|[(pil' & engine & e' & Hpy & _)
           |(pil' & engine & text & Hpy & _)]]];
      try (rewrite Heq in Hroi; by apply elem_of_nil in Hroi);
      try congruence;
      unfold TESSERACT_AVAILABLE in Hoff; by rewrite Hpy in Hoff.
Qed.

End Crops.

Lemma crops_on_corrected_image_witness :
  ∃ image field zone,
    Demo.decode "x" = Some image
    ∧ size_of (IM := Demo.imaging) image ≠ 0%nat
    ∧ [630; 1000; 3]%nat = corrected_image Demo.online image
    ∧ [630; 1000; 3]%nat
      = (if (process (detector Demo.online) image).2
         then (process (detector Demo.online) image).1
         else normalize_document (normalizer Demo.online) image)
    ∧ field ∈ FRONT_FIELDS
    ∧ zones (Demo.layout "front") !! field = Some zone
    ∧ zone_rect 1000 630 zone = Ok (100, 63, 200, 31).
Proof.
  apply (@crops_on_corrected_image _ Demo.ascii_unicode Demo.online "x" "front" FRONT_FIELDS).
  apply (list_elem_of_lookup_2 _ 4%nat). vm_compute. reflexivity.
Defined.

Lemma fallback_iff_undetected_witness :
  EvNormalize (IM := Demo.imaging) [630; 1000; 3]%nat
    ∈ trace (@_process_side _ Demo.ascii_unicode Demo.online "x" "front" FRONT_FIELDS).
Proof.
  apply (proj2 (@fallback_iff_undetected _ Demo.ascii_unicode Demo.online "x" "front"
                  FRONT_FIELDS [630; 1000; 3]%nat)).
  split; [reflexivity|]. split; [|reflexivity].
  change (630 * (1000 * (3 * 1)) ≠ 0)%nat. lia.
Defined.

Lemma engine_called_in_line_mode_witness :
  TESSERACT_AVAILABLE (IM := Demo.imaging) = true.
Proof.
  apply (proj1 (@engine_called_in_line_mode _ Demo.ascii_unicode Demo.online "x" "front"
                  FRONT_FIELDS) [31; 200; 3]%nat "pol+eng"%string "--psm 7"%string).
  apply (list_elem_of_lookup_2 _ 7%nat). vm_compute. reflexivity.
Defined.

(** ** How many calls, and when a side raises *)

Lemma count_events_app {IM : Imaging} (p : Event → bool) (t1 t2 : list Event) :
  count_events p (t1 ++ t2) = (count_events p t1 + count_events p t2)%nat.
Proof. unfold count_events. by rewrite List.filter_app, length_app. Qed.

Lemma count_events_none {IM : Imaging} (p : Event → bool) (t : list Event) :
  (∀ ev, ev ∈ t → p ev = false) → count_events p t = 0%nat.
Proof.
  unfold count_events. induction t as [|ev t IH]; intros Hall; [done|].
  simpl. rewrite (Hall ev) by left. apply IH. intros ev' Hev'. apply Hall. by right.
Qed.

Section Counting.
Context {IM : Imaging} {UD : UnicodeData}.
Implicit Types (self : IDCardOCRProcessor) (corrected : ndarray).
Implicit Types (zs : gmap string Zone) (results : gmap string pystr).

(** One step of the loop: at most one crop, one recognition, one engine
    call, each only after the one before. *)
Lemma process_field_counts self corrected zs field :
  let t := trace (process_field self corrected zs field) in
  (count_events is_engine t ≤ count_events is_recognize t)%nat
  ∧ (count_events is_recognize t ≤ count_events is_crop t)%nat
  ∧ (count_events is_crop t ≤ 1)%nat.
Proof.
  destruct (process_field_cases self corrected zs field)
    as [[_ ->]|[(zone & e & _ & _ & ->)|[(zone & x & y & w & h & _ & _ & _ & ->)
       |(zone & x & y & w & h & text & _ & _ & _ & _ & ->)]]];
    unfold trace; simpl; try (unfold count_events; simpl; lia).
  destruct (extract_text_from_roi_cases (ocr_service self)
              (crop_zone (detector self) corrected x y w h))
    as [[_ ->]|[(e & _ & _ & ->)|[(pil & engine & e & _ & _ & _ & ->)
       |(pil & engine & t & _ & _ & _ & ->)]]];
    unfold count_events; simpl; lia.
Qed.

Lemma extract_fields_cons_trace self corrected zs field rest results :
  trace (extract_fields self corrected zs (field :: rest) results)
  = trace (process_field self corrected zs field)
    ++ match value (process_field self corrected zs field) with
       | Ok text => trace (extract_fields self corrected zs rest (<[field := text]> results))
       | Raise _ => []
       end.
Proof.
  simpl. destruct (process_field self corrected zs field) as [[text|e] t] eqn:Hf.
  - by rewrite (trace_bind_Ok _ _ text).
  - rewrite (bind_Raise _ _ e) by done. unfold trace, value. simpl. by rewrite app_nil_r.
Qed.

Lemma extract_fields_cons_value self corrected zs field rest results :
  value (extract_fields self corrected zs (field :: rest) results)
  = match value (process_field self corrected zs field) with
    | Ok text => value (extract_fields self corrected zs rest (<[field := text]> results))
    | Raise e => Raise e
    end.
Proof.
  simpl. destruct (process_field self corrected zs field) as [[text|e] t] eqn:Hf.
  - by rewrite (value_bind_Ok _ _ text).
  - by rewrite (bind_Raise _ _ e).
Qed.

Lemma extract_fields_counts self corrected zs fields results :
  let t := trace (extract_fields self corrected zs fields results) in
  (count_events is_engine t ≤ count_events is_recognize t)%nat
  ∧ (count_events is_recognize t ≤ count_events is_crop t)%nat
  ∧ (count_events is_crop t ≤ length fields)%nat.
Proof.
  revert results. induction fields as [|f fields IH]; intros results.
  - unfold count_events. simpl. lia.
  - cbv zeta. rewrite extract_fields_cons_trace, !count_events_app.
    destruct (process_field_counts self corrected zs f) as (H1 & H2 & H3).
    destruct (value (process_field self corrected zs f)) as [text|e].
    + destruct (IH (<[f := text]> results)) as (I1 & I2 & I3). simpl. lia.
    + unfold count_events in *. simpl. lia.
Qed.

(** X6. In one call of [_process_side] there is at most one crop per listed
    field, at most one call of the recognition service per crop and at most
    one engine call per call of the service. *)
Theorem calls_bounded self (image_base64 side : string) (fields : list string) :
  let t := trace (_process_side self image_base64 side fields) in
  (count_events is_engine t ≤ count_events is_recognize t)%nat
  ∧ (count_events is_recognize t ≤ count_events is_crop t)%nat
  ∧ (count_events is_crop t ≤ length fields)%nat.
Proof.
  destruct (decode_base64 (normalizer self) image_base64) as [image|] eqn:Hdec.
  2:{ rewrite (process_side_undecoded self image_base64 side fields) by (by left).
      unfold count_events. simpl. lia. }
  destruct (decide (size_of image = 0%nat)) as [Hsz|Hsz].
  { rewrite (process_side_undecoded self image_base64 side fields)
      by (right; by exists image).
    unfold count_events. simpl. lia. }
  cbv zeta. rewrite (process_side_trace _ _ _ _ _ Hdec Hsz).
  destruct (extract_fields_counts self (corrected_image self image)
              (zones (load_zones (zone_reader self) side)) fields ∅) as (H1 & H2 & H3).
  change (?a :: ?b :: ?c ++ ?d :: ?t ++ ?v) with ([a; b] ++ c ++ [d] ++ t ++ v).
  rewrite !count_events_app.
  assert (∀ p, p = is_engine ∨ p = is_recognize ∨ p = is_crop →
            count_events p [EvDecode image_base64; EvDetect image] = 0%nat
            ∧ count_events p (if (process (detector self) image).2
                              then [] else [EvNormalize image]) = 0%nat
            ∧ count_events p [EvLoadZones side] = 0%nat
            ∧ count_events p
                (match value (extract_fields self (corrected_image self image)
                                (zones (load_zones (zone_reader self) side)) fields ∅) with
                 | Ok out => [EvValidate out]
                 | Raise _ => []
                 end) = 0%nat) as Hzero.
  { intros p Hp. destruct (process (detector self) image).2;
      destruct (value _); by destruct Hp as [->|[->| ->]]. }
  destruct (Hzero is_engine) as (-> & -> & -> & ->); [auto|].
  destruct (Hzero is_recognize) as (-> & -> & -> & ->); [auto|].
  destruct (Hzero is_crop) as (-> & -> & -> & ->); [auto|].
  lia.
Qed.

Lemma scale_not_scalable (c : float) (n : Z) :
  scalable c n = false →
  ∃ e, scale c n = Raise e ∧ (e = ValueError ∨ e = OverflowError).
Proof.
  unfold scalable, scale, mul_float_int, float_of_int.
  destruct (float_finite (SF2Prim _)); [|intros _; eauto].
  unfold float_finite, int_of_float.
  destruct (Prim2SF _) as [s|s| |s m e]; intros Hf; try done; eauto.
Qed.

Lemma scale_cases (c : float) (n : Z) :
  (scalable c n = true ∧ ∃ v, scale c n = Ok v)
  ∨ (scalable c n = false
     ∧ ∃ e, scale c n = Raise e ∧ (e = ValueError ∨ e = OverflowError)).
Proof.
  destruct (scalable c n) eqn:Hs.
  - left. split; [done|]. destruct (scalable_scale c n Hs) as (v & Hv & _). eauto.
  - right. split; [done|]. by apply scale_not_scalable.
Qed.

(** The rectangle of a zone exists exactly when its four scaled
    coordinates are finite; otherwise [zone_rect] raises [ValueError] or
    [OverflowError]. *)
Lemma zone_rect_cases (width height : Z) (zone : Zone) :
  (zone_finite width height zone = true
   ∧ ∃ rect, zone_rect width height zone = Ok rect)
  ∨ (zone_finite width height zone = false
     ∧ ∃ e, zone_rect width height zone = Raise e
          ∧ (e = ValueError ∨ e = OverflowError)).
Proof.
  unfold zone_finite, zone_rect.
  destruct (scale_cases (zone_x zone) width) as [[-> [x ->]]|[-> (e & -> & He)]];
    [|right; eauto].
  destruct (scale_cases (zone_y zone) height) as [[-> [y ->]]|[-> (e & -> & He)]];
    [|right; eauto].
  destruct (scale_cases (zone_width zone) width) as [[-> [w ->]]|[-> (e & -> & He)]];
    [|right; eauto].
  destruct (scale_cases (zone_height zone) height) as [[-> [h ->]]|[-> (e & -> & He)]];
    [|right; eauto].
  left. eauto.
Qed.

(** A loop step raises exactly when the zone of its field is not finite. *)
Lemma process_field_value self corrected zs field :
  (field_finite self zs field = true
   ∧ ∃ text, value (process_field self corrected zs field) = Ok text)
  ∨ (field_finite self zs field = false
     ∧ ∃ e, value (process_field self corrected zs field) = Raise e
          ∧ (e = ValueError ∨ e = OverflowError)).
Proof.
  unfold field_finite.
  destruct (process_field_cases self corrected zs field)
    as [[-> ->]|[(zone & e & -> & Hr & ->)|[(zone & x & y & w & h & -> & Hr & _ & ->)
       |(zone & x & y & w & h & text & -> & Hr & _ & _ & ->)]]].
  - left. eauto.
  - destruct (zone_rect_cases (target_width self) (target_height self) zone)
      as [[_ [rect Hrect]]|[-> (e' & He' & Hkind)]]; [congruence|].
    right. split; [done|]. exists e. split; [done|]. congruence.
  - destruct (zone_rect_cases (target_width self) (target_height self) zone)
      as [[-> _]|[_ (e' & He' & _)]]; [|congruence]. left. eauto.
  - destruct (zone_rect_cases (target_width self) (target_height self) zone)
      as [[-> _]|[_ (e' & He' & _)]]; [|congruence]. left. eauto.
Qed.

Lemma extract_fields_value self corrected zs fields results :
  (Forall (λ f, field_finite self zs f = true) fields
   ∧ ∃ out, value (extract_fields self corrected zs fields results) = Ok out)
  ∨ (Exists (λ f, field_finite self zs f = false) fields
     ∧ ∃ e, value (extract_fields self corrected zs fields results) = Raise e
          ∧ (e = ValueError ∨ e = OverflowError)
          ∧ count_events is_validate
              (trace (extract_fields self corrected zs fields results)) = 0%nat).
Proof.
  revert results. induction fields as [|f fields IH]; intros results.
  - left. split; [constructor|]. by exists results.
  - rewrite extract_fields_cons_value, extract_fields_cons_trace.
    assert (count_events is_validate (trace (process_field self corrected zs f)) = 0%nat)
      as Hnone.
    { apply count_events_none. intros ev Hev.
      apply process_field_events in Hev. by destruct ev. }
    destruct (process_field_value self corrected zs f)
      as [[Hfin [text Hf]]|[Hfin (e & Hf & He)]]; rewrite Hf.
    + destruct (IH (<[f := text]> results))
        as [[Hall [out Hout]]|[Hex (e & He & Hkind & Hval)]].
      * left. split; [by constructor|]. by exists out.
      * right. split; [by right|]. exists e. repeat (split; [done|]).
        by rewrite count_events_app, Hval, Hnone.
    + right. split; [by left|]. exists e. repeat (split; [done|]).
      by rewrite app_nil_r.
Qed.


End Counting.


(** ** The field list as a set *)

Lemma empty_results_members (fields1 fields2 : list string) :
  (∀ f, f ∈ fields1 ↔ f ∈ fields2) → empty_results fields1 = empty_results fields2.
Proof.
  intros Hmem. apply map_eq. intros k.
  destruct (empty_results_spec fields1) as [Hd1 Hv1].
  destruct (empty_results_spec fields2) as [Hd2 Hv2].
  destruct (decide (k ∈ fields1)) as [Hin|Hnin].
  - rewrite Hv1 by done. rewrite Hv2; [done|]. by apply Hmem.
  - transitivity (@None pystr); [|symmetry]; apply not_elem_of_dom.
    + rewrite Hd1. set_solver.
    + rewrite Hd2. assert (k ∉ fields2) by (intros ?; apply Hnin; by apply Hmem). set_solver.
Qed.

Section Order.
Context {IM : Imaging} {UD : UnicodeData}.
Implicit Types (self : IDCardOCRProcessor) (corrected : ndarray).
Implicit Types (zs : gmap string Zone).

Lemma extract_fields_finite self corrected zs fields (results : gmap string pystr) :
  Forall (λ f, field_finite self zs f = true) fields →
  ∃ out, value (extract_fields self corrected zs fields results) = Ok out
    ∧ dom out = dom results ∪ list_to_set fields
    ∧ (∀ k, k ∉ fields → out !! k = results !! k)
    ∧ (∀ k, k ∈ fields →
         ∃ text, value (process_field self corrected zs k) = Ok text
                 ∧ out !! k = Some text).
Proof.
  intros Hall. rewrite Forall_forall in Hall.
  assert (∀ f, f ∈ fields → ∃ text, value (process_field self corrected zs f) = Ok text)
    as Hret.
  { intros f Hf. destruct (process_field_value self corrected zs f)
      as [[_ Hok]|[Hbad _]]; [done|]. specialize (Hall f Hf). congruence. }
  destruct (extract_fields_returns self corrected zs fields results Hret)
    as (out & Hout & Hdom & Hold & Hnew).
  exists out. repeat (split; [done|]).
  intros k Hk. destruct (Hret k Hk) as [text Htext]. exists text. split; [done|].
  by apply Hnew.
Qed.

(** X8. The text the loop stores for a field is the one the step of that
    field computes: it does not depend on which other fields are listed,
    on their order, on repetitions, or on what the dictionary held
    before. *)
Theorem field_text_independent self corrected zs (fields1 fields2 : list string)
    (results1 results2 : gmap string pystr) (field : string) :
  field ∈ fields1 →
  field ∈ fields2 →
  Forall (λ f, field_finite self zs f = true) fields1 →
  Forall (λ f, field_finite self zs f = true) fields2 →
  ∃ out1 out2 text,
    value (extract_fields self corrected zs fields1 results1) = Ok out1
    ∧ value (extract_fields self corrected zs fields2 results2) = Ok out2
    ∧ value (process_field self corrected zs field) = Ok text
    ∧ out1 !! field = Some text
    ∧ out2 !! field = Some text.
Proof.
  intros Hin1 Hin2 Hall1 Hall2.
  destruct (extract_fields_finite self corrected zs fields1 results1 Hall1)
    as (out1 & Hout1 & _ & _ & Hnew1).
  destruct (extract_fields_finite self corrected zs fields2 results2 Hall2)
    as (out2 & Hout2 & _ & _ & Hnew2).
  destruct (Hnew1 field Hin1) as (text & Htext & Hl1).
  destruct (Hnew2 field Hin2) as (text' & Htext' & Hl2).
  exists out1, out2, text. repeat (split; [done|]). congruence.
Qed.

(** X9. The result of a side depends on the field list only as a set: two
    lists with the same members, in any order and with any repetitions,
    give the same dictionary, for a decodable and for an undecodable
    input. *)
Theorem field_order_irrelevant self (image_base64 side : string)
    (fields1 fields2 : list string) :
  (∀ f, f ∈ fields1 ↔ f ∈ fields2) →
  Forall (λ f, field_finite self (zones (load_zones (zone_reader self) side)) f = true)
    fields1 →
  ∃ r, value (_process_side self image_base64 side fields1) = Ok r
    ∧ value (_process_side self image_base64 side fields2) = Ok r.
Proof.
  intros Hmem Hall1.
  assert (Forall (λ f, field_finite self (zones (load_zones (zone_reader self) side)) f = true)
            fields2) as Hall2.
  { rewrite Forall_forall in *. intros f Hf. apply Hall1. by apply Hmem. }
  destruct (decode_base64 (normalizer self) image_base64) as [image|] eqn:Hdec.
  2:{ exists (empty_results fields1).
      rewrite !(process_side_undecoded self image_base64 side) by (by left).
      split; [done|]. unfold value. simpl. f_equal. symmetry.
      by apply empty_results_members. }
  destruct (decide (size_of image = 0%nat)) as [Hsz|Hsz].
  { exists (empty_results fields1).
    rewrite !(process_side_undecoded self image_base64 side) by (right; by exists image).
    split; [done|]. unfold value. simpl. f_equal. symmetry.
    by apply empty_results_members. }
  destruct (extract_fields_finite self (corrected_image self image) _ fields1 ∅ Hall1)
    as (out1 & Hout1 & Hdom1 & _ & Hnew1).
  destruct (extract_fields_finite self (corrected_image self image) _ fields2 ∅ Hall2)
    as (out2 & Hout2 & Hdom2 & _ & Hnew2).
  destruct (process_side_decoded self image_base64 side fields1 image Hdec Hsz) as (Hok1 & _).
  destruct (process_side_decoded self image_base64 side fields2 image Hdec Hsz) as (Hok2 & _).
  exists (validate_all (validator self) out1).
  split; [by apply Hok1|]. rewrite (Hok2 out2 Hout2). do 2 f_equal.
  apply map_eq. intros k. destruct (decide (k ∈ fields1)) as [Hin|Hnin].
  - destruct (Hnew1 k Hin) as (text & Htext & ->).
    destruct (Hnew2 k (proj1 (Hmem k) Hin)) as (text' & Htext' & ->). congruence.
  - transitivity (@None pystr); [|symmetry]; apply (not_elem_of_dom (D := gset string)).
    + rewrite Hdom2. assert (k ∉ fields2) by (intros ?; apply Hnin; by apply Hmem). set_solver.
    + rewrite Hdom1. set_solver.
Qed.

End Order.

Lemma field_text_independent_witness :
  ∃ out1 out2 text,
    value (@extract_fields _ Demo.ascii_unicode Demo.online [630; 1000; 3]%nat
             (zones (Demo.layout "front")) FRONT_FIELDS ∅) = Ok out1
    ∧ value (@extract_fields _ Demo.ascii_unicode Demo.online [630; 1000; 3]%nat
               (zones (Demo.layout "front")) ["f_plec"; "f_nazwisko"; "f_plec"]%string
               {[ "f_nazwisko"%string := Demo.codes "old" ]}) = Ok out2
    ∧ value (@process_field _ Demo.ascii_unicode Demo.online [630; 1000; 3]%nat
               (zones (Demo.layout "front")) "f_nazwisko") = Ok text
    ∧ out1 !! "f_nazwisko"%string = Some text
    ∧ out2 !! "f_nazwisko"%string = Some text.
Proof.
  apply (@field_text_independent _ Demo.ascii_unicode Demo.online).
  - vm_compute. set_solver.
  - set_solver.
  - repeat (constructor; [by vm_compute|]); constructor.
  - repeat (constructor; [by vm_compute|]); constructor.
Defined.

Lemma field_order_irrelevant_witness :
  ∃ r, value (@_process_side _ Demo.ascii_unicode Demo.online "x" "front"
                ["f_nazwisko"; "f_plec"]%string) = Ok r
    ∧ value (@_process_side _ Demo.ascii_unicode Demo.online "x" "front"
               ["f_plec"; "f_nazwisko"; "f_plec"]%string) = Ok r.
Proof.
  apply (@field_order_irrelevant _ Demo.ascii_unicode Demo.online "x" "front").
  - set_solver.
  - repeat (constructor; [by vm_compute|]); constructor.
Defined.

(** ** Merging the two sides *)

Lemma combine_lookup (front_results back_results : gmap string pystr) (k : string) :
  data (combine front_results back_results) !! k
  = match back_results !! k with
    | Some v => Some v
    | None => front_results !! k
    end.
Proof.
  unfold combine, update. simpl. rewrite !lookup_union, lookup_empty.
  destruct (back_results !! k), (front_results !! k); done.
Qed.

(** X10. In the merged dictionary a key of the back result carries the back
    value, also when the front result has the same key; a key of the front
    result alone carries the front value; no other key appears.  So
    [total_fields] never exceeds the sum of the two sizes. *)
Theorem combine_back_wins (front_results back_results : gmap string pystr) :
  (∀ k, data (combine front_results back_results) !! k
        = match back_results !! k with
          | Some v => Some v
          | None => front_results !! k
          end)
  ∧ dom (data (combine front_results back_results))
    = dom front_results ∪ dom back_results
  ∧ total_fields (combine front_results back_results)
    ≤ Z.of_nat (size front_results) + Z.of_nat (size back_results).
Proof.
  unfold combine, update. simpl. split; [|split].
  - intros k. unfold combine, update. simpl. rewrite !lookup_union, lookup_empty.
    destruct (back_results !! k), (front_results !! k); done.
  - rewrite !dom_union_L, dom_empty_L. set_solver.
  - rewrite <-!(size_dom (D := gset string)), !dom_union_L, dom_empty_L.
    pose proof (size_union_alt (dom back_results) (dom front_results ∪ ∅)) as Hsz.
    assert (dom front_results ∪ (∅ : gset string) = dom front_results) as Hf by set_solver.
    rewrite Hf in *.
    pose proof (subseteq_size (dom front_results ∖ dom back_results) (dom front_results)
                  ltac:(set_solver)).
    lia.
Qed.

Lemma count_truthy_acc (d : gmap string pystr) (c : Z) :
  map_fold (λ (_ : string) (v : pystr) acc, if truthy v then acc + 1 else acc) c d
  = c + count_truthy d.
Proof.
  unfold count_truthy.
  induction d as [|k v d Hk Hfold IH] using map_first_key_ind.
  - rewrite !map_fold_empty. lia.
  - rewrite !(map_fold_insert_first_key _ _ _ _ _ Hk Hfold), IH.
    destruct (truthy v); lia.
Qed.

Lemma count_truthy_disjoint (d1 d2 : gmap string pystr) :
  d1 ##ₘ d2 → count_truthy (d1 ∪ d2) = count_truthy d1 + count_truthy d2.
Proof.
  intros Hdisj. unfold count_truthy at 1.
  rewrite (map_fold_disj_union _ _ _ _ Hdisj).
  - rewrite (count_truthy_acc d1). unfold count_truthy. lia.
  - intros j1 j2 z1 z2 y. destruct (truthy z1), (truthy z2); lia.
Qed.

Lemma combine_extracted_disjoint (front_results back_results : gmap string pystr) :
  dom front_results ## dom back_results →
  extracted_fields (combine front_results back_results)
  = nonempty_values front_results + nonempty_values back_results.
Proof.
  intros Hdisj. apply map_disjoint_dom in Hdisj.
  unfold combine, update. simpl. rewrite (right_id_L ∅ (∪)).
  rewrite count_truthy_disjoint by done.
  rewrite !count_truthy_nonempty. lia.
Qed.

(** X11. When the two side results have no key in common, [total_fields]
    is the sum of their sizes and [extracted_fields] is the sum of their
    numbers of non-empty values. *)
Theorem combine_disjoint (front_results back_results : gmap string pystr) :
  dom front_results ## dom back_results →
  total_fields (combine front_results back_results)
    = Z.of_nat (size front_results) + Z.of_nat (size back_results)
  ∧ extracted_fields (combine front_results back_results)
    = nonempty_values front_results + nonempty_values back_results.
Proof.
  intros Hdisj. apply map_disjoint_dom in Hdisj.
  unfold combine, update. simpl. rewrite (right_id_L ∅ (∪)). split.
  - rewrite map_size_disj_union by done. lia.
  - rewrite count_truthy_disjoint by done.
    rewrite !count_truthy_nonempty. lia.
Qed.

Lemma combine_disjoint_witness :
  total_fields (combine {[ "f_plec"%string := Demo.codes "K" ]}
                        {[ "MRZ"%string := []; "b_numer_id"%string := Demo.codes "7" ]})
    = 1 + 2
  ∧ extracted_fields (combine {[ "f_plec"%string := Demo.codes "K" ]}
                        {[ "MRZ"%string := []; "b_numer_id"%string := Demo.codes "7" ]})
    = 1 + 1.
Proof.
  destruct (combine_disjoint {[ "f_plec"%string := Demo.codes "K" ]}
              {[ "MRZ"%string := []; "b_numer_id"%string := Demo.codes "7" ]})
    as [Ht He]; [set_solver|].
  split; [exact Ht|exact He].
Defined.

(** ** The extraction rate over the 17 fields *)

Lemma forallb_seqZ (p : Z → bool) (lo len n : Z) :
  forallb p (seqZ lo len) = true → lo ≤ n < lo + len → p n = true.
Proof.
  intros Hall Hn. rewrite forallb_forall in Hall. apply Hall.
  apply list_elem_of_In, elem_of_seqZ. lia.
Qed.

Lemma rate_checks_all (n : Z) : 0 ≤ n ≤ 17 → rate_checks n = true.
Proof.
  intros Hn. apply (forallb_seqZ rate_checks 0 18); [by vm_compute|lia].
Qed.

Lemma truediv_17_lt (a b : Z) :
  0 ≤ a → a < b → b ≤ 17 → PrimFloat.ltb (truediv a 17) (truediv b 17) = true.
Proof.
  intros Ha Hab Hb.
  pose (p := λ a, forallb (λ b, implb (a <? b) (PrimFloat.ltb (truediv a 17) (truediv b 17)))
                    (seqZ 0 18)).
  assert (p a = true) as Hp by (apply (forallb_seqZ p 0 17); [by vm_compute|lia]).
  apply (forallb_seqZ _ 0 18 b) in Hp; [|lia].
  cbv beta in Hp. apply Z.ltb_lt in Hab. by rewrite Hab in Hp.
Qed.

Lemma bind_silent_trace {IM : Imaging} {A B} (a : A) (t : list Event) (f : A → M B) :
  (Ok a, t) ≫= f = ((f a).1, t ++ (f a).2).
Proof. unfold mbind, M_bind, bind. by destruct (f a). Qed.

Lemma fields_disjoint :
  (list_to_set FRONT_FIELDS : gset string) ## list_to_set BACK_FIELDS.
Proof.
  apply elem_of_disjoint. intros k Hf Hb.
  apply elem_of_list_to_set in Hf, Hb.
  unfold FRONT_FIELDS in Hf. unfold BACK_FIELDS in Hb.
  repeat (apply elem_of_cons in Hf as [->|Hf];
          [repeat (apply elem_of_cons in Hb as [[=]|Hb]); by apply elem_of_nil in Hb|]).
  by apply elem_of_nil in Hf.
Qed.

Section BothSides.
Context {IM : Imaging} {UD : UnicodeData}.
Implicit Types (self : IDCardOCRProcessor).

(** Both sides return, with the keys of their field lists. *)
Lemma process_both_sides self front_base64 back_base64 :
  layout_finite self →
  keeps_keys (validator self) →
  ∃ front_results back_results,
    value (process_front self front_base64) = Ok front_results
    ∧ value (process_back self back_base64) = Ok back_results
    ∧ dom front_results = list_to_set FRONT_FIELDS
    ∧ dom back_results = list_to_set BACK_FIELDS
    ∧ value (process_both self front_base64 back_base64)
      = Ok (combine front_results back_results).
Proof.
  intros Hfin Hkeys.
  destruct (process_side_keys self front_base64 "front" FRONT_FIELDS Hfin Hkeys)
    as (f & Hf & Hdf).
  destruct (process_side_keys self back_base64 "back" BACK_FIELDS Hfin Hkeys)
    as (b & Hb & Hdb).
  exists f, b. repeat (split; [done|]). by apply process_both_value.
Qed.

Lemma combine_rate (front_results back_results : gmap string pystr) :
  dom front_results = list_to_set FRONT_FIELDS →
  dom back_results = list_to_set BACK_FIELDS →
  let r := combine front_results back_results in
  0 ≤ extracted_fields r ≤ 17
  ∧ extraction_rate r = PyFloat (truediv (extracted_fields r) 17).
Proof.
  intros Hf Hb r. pose proof (combine_total _ _ Hf Hb) as Htotal. fold r in Htotal.
  split.
  - change (extracted_fields r) with (count_truthy (data r)).
    rewrite count_truthy_nonempty.
    pose proof (nonempty_values_bound (data r)) as Hbound.
    change (Z.of_nat (size (data r))) with (total_fields r) in Hbound. lia.
  - change (extraction_rate r)
      with (if 0 <? total_fields r
            then PyFloat (truediv (extracted_fields r) (total_fields r))
            else PyInt 0).
    by rewrite Htotal.
Qed.

(** X12. With a finite zone layout and a validator that keeps the key set,
    the rate [process_both] reports is a float between 0 and 1 that
    determines the count: the rate times 17, rounded, is
    [extracted_fields]; the rate is 0 exactly when no field was extracted
    and 1 exactly when all 17 were. *)
Theorem rate_consistent self (front_base64 back_base64 : string) :
  layout_finite self →
  keeps_keys (validator self) →
  ∃ r q,
    value (process_both self front_base64 back_base64) = Ok r
    ∧ extraction_rate r = PyFloat q
    ∧ round_of_float (PrimFloat.mul q 17) = Ok (extracted_fields r)
    ∧ PrimFloat.leb 0 q = true
    ∧ PrimFloat.leb q 1 = true
    ∧ (PrimFloat.eqb q 0 = true ↔ extracted_fields r = 0)
    ∧ (PrimFloat.eqb q 1 = true ↔ extracted_fields r = 17).
Proof.
  intros Hfin Hkeys.
  destruct (process_both_sides self front_base64 back_base64 Hfin Hkeys)
    as (f & b & _ & _ & Hdf & Hdb & Hboth).
  destruct (combine_rate f b Hdf Hdb) as [Hrange Hrate].
  exists (combine f b), (truediv (extracted_fields (combine f b)) 17).
  repeat (split; [done|]).
  pose proof (rate_checks_all _ Hrange) as Hchk. unfold rate_checks in Hchk.
  cbv zeta in Hchk. rewrite !andb_true_iff in Hchk.
  destruct Hchk as ((((Hround & Hlo) & Hhi) & Hzero) & Hone).
  destruct (round_of_float _) as [v|e]; [|done].
  apply Z.eqb_eq in Hround as ->. repeat (split; [done|]).
  apply Bool.eqb_prop in Hzero, Hone. rewrite Hzero, Hone.
  split; apply Z.eqb_eq.
Qed.

(** X13. Under the same assumptions, of two results of [process_both] the
    one with more extracted fields reports the strictly larger rate, and
    equal counts give equal rates. *)
Theorem rate_monotone self (front1 back1 front2 back2 : string) :
  layout_finite self →
  keeps_keys (validator self) →
  ∃ r1 r2 q1 q2,
    value (process_both self front1 back1) = Ok r1
    ∧ value (process_both self front2 back2) = Ok r2
    ∧ extraction_rate r1 = PyFloat q1
    ∧ extraction_rate r2 = PyFloat q2
    ∧ (extracted_fields r1 < extracted_fields r2 → PrimFloat.ltb q1 q2 = true)
    ∧ (extracted_fields r1 = extracted_fields r2 → q1 = q2).
Proof.
  intros Hfin Hkeys.
  destruct (process_both_sides self front1 back1 Hfin Hkeys)
    as (f1 & b1 & _ & _ & Hdf1 & Hdb1 & Hboth1).
  destruct (process_both_sides self front2 back2 Hfin Hkeys)
    as (f2 & b2 & _ & _ & Hdf2 & Hdb2 & Hboth2).
  destruct (combine_rate f1 b1 Hdf1 Hdb1) as [Hrange1 Hrate1].
  destruct (combine_rate f2 b2 Hdf2 Hdb2) as [Hrange2 Hrate2].
  exists (combine f1 b1), (combine f2 b2),
    (truediv (extracted_fields (combine f1 b1)) 17),
    (truediv (extracted_fields (combine f2 b2)) 17).
  repeat (split; [done|]). split.
  - intros Hlt. apply truediv_17_lt; lia.
  - by intros ->.
Qed.

(** X14. When neither image can be decoded, [process_both] still returns:
    it makes the two decode calls and nothing else, every one of the 17
    fields is mapped to the empty string, [extracted_fields] is 0,
    [total_fields] is 17, the rate is [0.0] and [success] is [True].  No
    assumption on the layout or the validator is needed. *)
Theorem both_undecodable self (front_base64 back_base64 : string) :
  (decode_base64 (normalizer self) front_base64 = None
   ∨ ∃ image, decode_base64 (normalizer self) front_base64 = Some image
              ∧ size_of image = 0%nat) →
  (decode_base64 (normalizer self) back_base64 = None
   ∨ ∃ image, decode_base64 (normalizer self) back_base64 = Some image
              ∧ size_of image = 0%nat) →
  ∃ r,
    process_both self front_base64 back_base64
      = (Ok r, [EvDecode front_base64; EvDecode back_base64])
    ∧ (∀ k, k ∈ FRONT_FIELDS ++ BACK_FIELDS → data r !! k = Some [])
    ∧ dom (data r) = list_to_set (FRONT_FIELDS ++ BACK_FIELDS)
    ∧ extracted_fields r = 0
    ∧ total_fields r = 17
    ∧ extraction_rate r = PyFloat 0
    ∧ success r = true.
Proof.
  intros Hf Hb.
  exists (combine (empty_results FRONT_FIELDS) (empty_results BACK_FIELDS)).
  split.
  - unfold process_both, process_front, process_back.
    rewrite (process_side_undecoded self front_base64 "front" FRONT_FIELDS Hf).
    rewrite bind_silent_trace.
    by rewrite (process_side_undecoded self back_base64 "back" BACK_FIELDS Hb).
  - assert (combine (empty_results FRONT_FIELDS) (empty_results BACK_FIELDS)
            = {| success := true;
                 data := empty_results (FRONT_FIELDS ++ BACK_FIELDS);
                 extracted_fields := 0;
                 total_fields := 17;
                 extraction_rate := PyFloat 0 |}) as -> by (by vm_compute).
    simpl. destruct (empty_results_spec (FRONT_FIELDS ++ BACK_FIELDS)) as [Hdom Hval].
    repeat (split; [done|]). done.
Qed.

End BothSides.

Section Apart.
Context {IM : Imaging} {UD : UnicodeData}.
Implicit Types (self : IDCardOCRProcessor).

(** X15. [process_both] works on the front first.  When the front side
    raises, the exception leaves [process_both] and the back image is not
    even decoded; when the front returns and the back raises, the exception
    leaves after the calls of both sides; when both return, the trace is
    the front's followed by the back's. *)
Theorem failure_order self (front_base64 back_base64 : string) :
  (∀ e, value (process_front self front_base64) = Raise e →
     process_both self front_base64 back_base64
       = (Raise e, trace (process_front self front_base64)))
  ∧ (∀ front_results e,
       value (process_front self front_base64) = Ok front_results →
       value (process_back self back_base64) = Raise e →
       process_both self front_base64 back_base64
         = (Raise e, trace (process_front self front_base64)
                     ++ trace (process_back self back_base64)))
  ∧ (∀ front_results back_results,
       value (process_front self front_base64) = Ok front_results →
       value (process_back self back_base64) = Ok back_results →
       process_both self front_base64 back_base64
         = (Ok (combine front_results back_results),
            trace (process_front self front_base64)
            ++ trace (process_back self back_base64))).
Proof.
  unfold process_both.
  destruct (process_front self front_base64) as [[f|e] tf];
    destruct (process_back self back_base64) as [[b|e'] tb] eqn:Hb;
    unfold value, trace; simpl; repeat split; intros; simplify_eq;
    rewrite ?bind_silent_trace, ?Hb; simpl; rewrite ?app_nil_r; done.
Qed.

(** X16. With a finite zone layout and a validator that keeps the key set,
    the merge loses nothing: every front field carries in [data] the value
    the front side returned, every back field the value the back side
    returned, and [extracted_fields] is the number of non-empty front
    values plus the number of non-empty back values. *)
Theorem sides_kept_apart self (front_base64 back_base64 : string) :
  layout_finite self →
  keeps_keys (validator self) →
  ∃ front_results back_results r,
    value (process_front self front_base64) = Ok front_results
    ∧ value (process_back self back_base64) = Ok back_results
    ∧ value (process_both self front_base64 back_base64) = Ok r
    ∧ (∀ k, k ∈ FRONT_FIELDS → data r !! k = front_results !! k)
    ∧ (∀ k, k ∈ BACK_FIELDS → data r !! k = back_results !! k)
    ∧ extracted_fields r
      = nonempty_values front_results + nonempty_values back_results.
Proof.
  intros Hfin Hkeys.
  destruct (process_both_sides self front_base64 back_base64 Hfin Hkeys)
    as (f & b & Hf & Hb & Hdf & Hdb & Hboth).
  exists f, b, (combine f b). repeat (split; [done|]).
  pose proof fields_disjoint as Hdisj. split; [|split].
  - intros k Hk. rewrite combine_lookup.
    assert (b !! k = None) as ->; [|done].
    apply (not_elem_of_dom (D := gset string)). rewrite Hdb.
    assert (k ∈ (list_to_set FRONT_FIELDS : gset string)) by set_solver. set_solver.
  - intros k Hk. rewrite combine_lookup.
    assert (is_Some (b !! k)) as [v ->]; [|done].
    apply (elem_of_dom (D := gset string)). rewrite Hdb. set_solver.
  - apply combine_extracted_disjoint. by rewrite Hdf, Hdb.
Qed.

End Apart.

Lemma rate_consistent_witness :
  ∃ r q,
    value (@process_both _ Demo.ascii_unicode Demo.online "x" "") = Ok r
    ∧ extraction_rate r = PyFloat q
    ∧ round_of_float (PrimFloat.mul q 17) = Ok (extracted_fields r).
Proof.
  destruct (@rate_consistent _ Demo.ascii_unicode Demo.online "x" ""
              (demo_layout_finite _ _ _) demo_keeps_keys)
    as (r & q & H1 & H2 & H3 & _).
  exists r, q. split; [exact H1|]. split; [exact H2|exact H3].
Defined.

Lemma rate_monotone_witness :
  ∃ r1 r2 q1 q2,
    value (@process_both _ Demo.ascii_unicode Demo.online "" "") = Ok r1
    ∧ value (@process_both _ Demo.ascii_unicode Demo.online "x" "") = Ok r2
    ∧ extraction_rate r1 = PyFloat q1
    ∧ extraction_rate r2 = PyFloat q2
    ∧ (extracted_fields r1 < extracted_fields r2 → PrimFloat.ltb q1 q2 = true).
Proof.
  destruct (@rate_monotone _ Demo.ascii_unicode Demo.online "" "" "x" ""
              (demo_layout_finite _ _ _) demo_keeps_keys)
    as (r1 & r2 & q1 & q2 & H1 & H2 & H3 & H4 & H5 & _).
  exists r1, r2, q1, q2. repeat (split; [assumption|]). exact H5.
Defined.

Lemma both_undecodable_witness :
  ∃ r,
    @process_both _ Demo.ascii_unicode Demo.online "" ""
      = (Ok r, [EvDecode ""; EvDecode ""])
    ∧ extracted_fields r = 0.
Proof.
  destruct (@both_undecodable _ Demo.ascii_unicode Demo.online "" "")
    as (r & H1 & _ & _ & H2 & _); [by left|by left|].
  exists r. split; [exact H1|exact H2].
Defined.

Lemma failure_order_witness :
  @process_both _ Demo.ascii_unicode Faulty.processor "x" "x"
  = (Raise ValueError, trace (@process_front _ Demo.ascii_unicode Faulty.processor "x")).
Proof.
  apply (proj1 (@failure_order _ Demo.ascii_unicode Faulty.processor "x" "x")).
  by vm_compute.
Defined.

Lemma sides_kept_apart_witness :
  ∃ front_results back_results r,
    value (@process_front _ Demo.ascii_unicode Demo.online "x") = Ok front_results
    ∧ value (@process_back _ Demo.ascii_unicode Demo.online "x") = Ok back_results
    ∧ value (@process_both _ Demo.ascii_unicode Demo.online "x" "x") = Ok r
    ∧ extracted_fields r
      = nonempty_values front_results + nonempty_values back_results.
Proof.
  destruct (@sides_kept_apart _ Demo.ascii_unicode Demo.online "x" "x"
              (demo_layout_finite _ _ _) demo_keeps_keys)
    as (f & b & r & H1 & H2 & H3 & _ & _ & H4).
  exists f, b, r. repeat (split; [assumption|]). exact H4.
Defined.

(** ** Block-mode recognition and diagnostics *)

Lemma strip_strip (s : pystr) : strip (strip s) = strip s.
Proof. destruct (strip_ends s). by apply strip_id. Qed.

Section Block.
Context {IM : Imaging} {DG : Diagnostics}.

Ltac run_IO :=
  unfold mbind, IO_bind, io_bind, io_emit, io_lift, io_try, io_of, print, open_image,
    mret, IO_ret, io_ret, fromarray, image_to_string,
    M_bind, bind, emit, lift; simpl.

(** The four ways a call of [extract_text_from_image] can go. *)
Lemma extract_text_from_image_cases (self : OCRService) (a : ndarray) :
  (TESSERACT_AVAILABLE = false
   ∧ extract_text_from_image self a
     = (Ok [], [IOPrint "Warning: Tesseract not available"]))
  ∨ (∃ e, TESSERACT_AVAILABLE = true
       ∧ Image_fromarray (rgb_of a) = Raise e
       ∧ extract_text_from_image self a
         = (Ok [], [IOCall (EvFromArray (rgb_of a));
                    IOPrint ("Tesseract OCR Error: " +:+ str_exc e)]))
  ∨ (∃ pil engine e, pytesseract = Some engine
       ∧ Image_fromarray (rgb_of a) = Ok pil
       ∧ engine pil "pol+eng"%string "--psm 6"%string = Raise e
       ∧ extract_text_from_image self a
         = (Ok [], [IOCall (EvFromArray (rgb_of a));
                    IOCall (EvEngine pil "pol+eng" "--psm 6");
                    IOPrint ("Tesseract OCR Error: " +:+ str_exc e)]))
  ∨ (∃ pil engine raw, pytesseract = Some engine
       ∧ Image_fromarray (rgb_of a) = Ok pil
       ∧ engine pil "pol+eng"%string "--psm 6"%string = Ok raw
       ∧ extract_text_from_image self a
         = (Ok (strip raw), [IOCall (EvFromArray (rgb_of a));
                             IOCall (EvEngine pil "pol+eng" "--psm 6")])).
Proof.
  unfold extract_text_from_image, TESSERACT_AVAILABLE.
  fold (rgb_of a).
  destruct pytesseract as [engine|] eqn:Hpy; simpl; [|by left].
  right. destruct (Image_fromarray (rgb_of a)) as [pil|e] eqn:Hpil.
  - right. destruct (engine pil "pol+eng"%string "--psm 6"%string) as [raw|e] eqn:Hrun.
    + right. exists pil, engine, raw. run_IO. by rewrite ?Hpy, ?Hpil, ?Hrun.
    + left. exists pil, engine, e. run_IO. by rewrite ?Hpy, ?Hpil, ?Hrun.
  - left. exists e. run_IO. by rewrite ?Hpil.
Qed.

(** The four ways a call of [extract_text] can go. *)
Lemma extract_text_cases (self : OCRService) (image : list Byte.byte) :
  (TESSERACT_AVAILABLE = false
   ∧ extract_text self image
     = (Ok [], [IOPrint "Warning: Tesseract not available. Install with: pip install pytesseract"]))
  ∨ (∃ e, TESSERACT_AVAILABLE = true
       ∧ Image_open image = Raise e
       ∧ extract_text self image
         = (Ok [], [IOOpen image; IOPrint ("Tesseract OCR Error: " +:+ str_exc e)]))
  ∨ (∃ pil engine e, pytesseract = Some engine
       ∧ Image_open image = Ok pil
       ∧ engine pil "pol+eng"%string "--psm 6"%string = Raise e
       ∧ extract_text self image
         = (Ok [], [IOOpen image; IOCall (EvEngine pil "pol+eng" "--psm 6");
                    IOPrint ("Tesseract OCR Error: " +:+ str_exc e)]))
  ∨ (∃ pil engine raw, pytesseract = Some engine
       ∧ Image_open image = Ok pil
       ∧ engine pil "pol+eng"%string "--psm 6"%string = Ok raw
       ∧ extract_text self image
         = (Ok (strip raw), [IOOpen image; IOCall (EvEngine pil "pol+eng" "--psm 6")])).
Proof.
  unfold extract_text, TESSERACT_AVAILABLE.
  destruct pytesseract as [engine|] eqn:Hpy; simpl; [|by left].
  right. destruct (Image_open image) as [pil|e] eqn:Hpil.
  - right. destruct (engine pil "pol+eng"%string "--psm 6"%string) as [raw|e] eqn:Hrun.
    + right. exists pil, engine, raw. run_IO. by rewrite ?Hpy, ?Hpil, ?Hrun.
    + left. exists pil, engine, e. run_IO. by rewrite ?Hpy, ?Hpil, ?Hrun.
  - left. exists e. run_IO. by rewrite ?Hpil.
Qed.



End Block.



Section Status.
Context {IM : Imaging} {DG : Diagnostics}.

Ltac run_IO :=
  unfold mbind, IO_bind, io_bind, io_emit, io_lift, io_try, print,
    mret, IO_ret, io_ret; simpl.

(** The three dictionaries [verify_installation] can return. *)
Lemma verify_installation_cases (self : OCRService) :
  (TESSERACT_AVAILABLE = false
   ∧ verify_installation self
     = (Ok {[ "installed"%string := VBool false;
              "error"%string := VStr "pytesseract not installed";
              "solution"%string := VStr "Run: pip install pytesseract" ]}, []))
  ∨ (∃ version, TESSERACT_AVAILABLE = true
       ∧ get_tesseract_version = Ok version
       ∧ verify_installation self
         = (Ok {[ "installed"%string := VBool true;
                  "version"%string := VStr (str_version version);
                  "status"%string := VStr "Ready" ]}, [IOVersion]))
  ∨ (∃ e, TESSERACT_AVAILABLE = true
       ∧ get_tesseract_version = Raise e
       ∧ verify_installation self
         = (Ok {[ "installed"%string := VBool false;
                  "error"%string := VStr (str_exc e);
                  "solution"%string :=
                    VStr "Install Tesseract OCR: https://github.com/UB-Mannheim/tesseract/wiki" ]},
            [IOVersion])).
Proof.
  unfold verify_installation.
  destruct TESSERACT_AVAILABLE; simpl; [|by left].
  right. destruct get_tesseract_version as [version|e] eqn:Hver.
  - left. exists version. run_IO. by rewrite ?Hver.
  - right. exists e. run_IO. by rewrite ?Hver.
Qed.


#[local] Arguments str_repeat : simpl never.
#[local] Arguments String.append : simpl never.

(** X21. The constructor of [OCRService] raises exactly when it is given a
    non-empty path while pytesseract could not be imported: storing the
    path needs the module, and the failure is a [NameError].  In every
    other case it returns a service whose [is_configured] is
    [TESSERACT_AVAILABLE], the value [is_available] reports, and it stores
    the path when there is one. *)
Theorem OCRService_init_behaviour (tesseract_path : option string) :
  ((∃ e, io_value (OCRService_init tesseract_path) = Raise e)
   ↔ ∃ path, tesseract_path = Some path ∧ path ≠ ""%string
             ∧ TESSERACT_AVAILABLE = false)
  ∧ (∀ e, io_value (OCRService_init tesseract_path) = Raise e →
       e = OtherError "NameError"
       ∧ io_trace (OCRService_init tesseract_path) = [])
  ∧ (∀ self, io_value (OCRService_init tesseract_path) = Ok self →
       is_configured self = TESSERACT_AVAILABLE
       ∧ is_available self = is_configured self
       ∧ io_trace (OCRService_init tesseract_path)
         = match tesseract_path with
           | Some path => if decide (path = ""%string) then [] else [IOSetCmd path]
           | None => []
           end).
Proof.
  unfold OCRService_init, TESSERACT_AVAILABLE, is_available, TESSERACT_AVAILABLE.
  destruct tesseract_path as [path|]; [destruct (decide (path = ""%string)) as [->|Hne]|];
    [| destruct pytesseract as [engine|] |]; run_IO; unfold io_value, io_trace; simpl.
  - split; [split; [by intros [? [=]]|intros (p & [= <-] & ? & _); done]|].
    split; [by intros ? [=]|]. by intros ? [= <-].
  - split; [split; [by intros [? [=]]|intros (p & _ & _ & [=])]|].
    split; [by intros ? [=]|]. by intros ? [= <-].
  - split; [split; [intros _; by exists path|eauto]|].
    split; [by intros ? [= <-]|]. by intros ? [=].
  - split; [split; [by intros [? [=]]|intros (p & [=] & _)]|].
    split; [by intros ? [=]|]. by intros ? [= <-].
Qed.

End Status.

(** *** [check_tesseract] and the console *)

Lemma ascii_only_append (s1 s2 : string) :
  ascii_only (s1 +:+ s2) = ascii_only s1 && ascii_only s2.
Proof.
  unfold ascii_only. induction s1 as [|a s1 IH]; [done|].
  simpl. by rewrite IH, andb_assoc.
Qed.

Section Console.
Context {IM : Imaging} {DG : Diagnostics} {CO : Console}.

#[local] Arguments str_repeat : simpl never.
#[local] Arguments String.append : simpl never.
#[local] Arguments printable : simpl never.

Ltac run_IO :=
  unfold mbind, IO_bind, io_bind, io_emit, io_lift, io_try, print_line,
    mret, IO_ret, io_ret; simpl.

Lemma printable_rule : printable (str_repeat "=" 50) = true.
Proof. unfold printable. by vm_compute. Qed.

Lemma printable_title : printable "Tesseract OCR Status:" = true.
Proof. unfold printable. by vm_compute. Qed.

(** A line that starts with a check mark, a cross or an arrow is printed
    only if the console's encoding has that character. *)
Lemma printable_marked (mark rest : string) :
  ascii_only mark = false → printable (mark +:+ rest) = stdout_encodes (mark +:+ rest).
Proof. intros Hm. unfold printable. by rewrite ascii_only_append, Hm. Qed.

(** [check_tesseract] on a dictionary that says [installed]. *)
Lemma check_tesseract_installed (info : gmap string PyVal) t (version status : PyVal) :
  verify_installation {| is_configured := TESSERACT_AVAILABLE |} = (Ok info, t) →
  info !! "installed"%string = Some (VBool true) →
  info !! "version"%string = Some version →
  info !! "status"%string = Some status →
  let header := [ IOPrint (str_repeat "=" 50); IOPrint "Tesseract OCR Status:";
                  IOPrint (str_repeat "=" 50) ] in
  let line4 := ("✓ Tesseract version: " +:+ val_format version)%string in
  let line5 := ("✓ Status: " +:+ val_format status)%string in
  check_tesseract
  = if printable line4
    then if printable line5
         then (Ok info, t ++ header ++ [IOPrint line4; IOPrint line5;
                                         IOPrint (str_repeat "=" 50)])
         else (Raise (OtherError "UnicodeEncodeError"), t ++ header ++ [IOPrint line4])
    else (Raise (OtherError "UnicodeEncodeError"), t ++ header).
Proof.
  intros Heq Hi Hv Hs header line4 line5. unfold check_tesseract, OCRService_init.
  run_IO. rewrite Heq. simpl.
  rewrite ?printable_rule, ?printable_title. simpl.
  unfold getitem. rewrite Hi. run_IO. rewrite Hv. simpl. fold line4.
  destruct (printable line4); simpl; [|done].
  rewrite Hs. simpl. fold line5. destruct (printable line5); simpl; [|done].
  by rewrite ?printable_rule.
Qed.

(** [check_tesseract] on a dictionary that says not [installed]. *)
Lemma check_tesseract_missing (info : gmap string PyVal) t (error solution : PyVal) :
  verify_installation {| is_configured := TESSERACT_AVAILABLE |} = (Ok info, t) →
  info !! "installed"%string = Some (VBool false) →
  info !! "error"%string = Some error →
  info !! "solution"%string = Some solution →
  let header := [ IOPrint (str_repeat "=" 50); IOPrint "Tesseract OCR Status:";
                  IOPrint (str_repeat "=" 50) ] in
  let line4 := ("✗ Error: " +:+ val_format error)%string in
  let line5 := ("→ Solution: " +:+ val_format solution)%string in
  check_tesseract
  = if printable line4
    then if printable line5
         then (Ok info, t ++ header ++ [IOPrint line4; IOPrint line5;
                                         IOPrint (str_repeat "=" 50)])
         else (Raise (OtherError "UnicodeEncodeError"), t ++ header ++ [IOPrint line4])
    else (Raise (OtherError "UnicodeEncodeError"), t ++ header).
Proof.
  intros Heq Hi He Hs header line4 line5. unfold check_tesseract, OCRService_init.
  run_IO. rewrite Heq. simpl.
  rewrite ?printable_rule, ?printable_title. simpl.
  unfold getitem. rewrite Hi. run_IO. rewrite He. simpl. fold line4.
  destruct (printable line4); simpl; [|done].
  rewrite Hs. simpl. fold line5. destruct (printable line5); simpl; [|done].
  by rewrite ?printable_rule.
Qed.


End Console.



Lemma OCRService_init_behaviour_witness :
  ∃ e, io_value (@OCRService_init Demo.imaging_offline (Some "/usr/bin/tesseract"%string))
       = Raise e.
Proof.
  apply (proj2 (proj1 (@OCRService_init_behaviour Demo.imaging_offline
                         (Some "/usr/bin/tesseract"%string)))).
  exists "/usr/bin/tesseract"%string. by repeat split.
Defined.
